(** * The HTTP backend of ovirt-imageio

    A shallow embedding of
    [common/ovirt_imageio_common/backends/http.py]: the [Backend] class,
    its private helpers and the two connection classes, together with the
    properties of the backend that its specification states.

    The backend is a client.  Everything it learns comes from the peer, so
    the peer is a parameter of the development: a function from the
    history of the connection and the current request to a response,
    together with what setting up a connection to it gives.  The Python
    objects that travel through the code untyped (decoded JSON,
    capability flags) are kept as Python values with Python's truth
    value. *)

From Stdlib Require Import ZArith List String Ascii Lia Bool.
From stdpp Require Import base gmap strings list pretty.

Open Scope Z_scope.

(** ** Python values *)

Definition bytes := list Byte.byte.

(** The values [json.loads] builds, without numbers that carry a fraction
    or an exponent: the model has no floating point. *)
#[warnings="-register-all"]
Inductive pyval : Type :=
| PNone
| PBool (b : bool)
| PInt (z : Z)
| PStr (s : string)
| PList (l : list pyval)
| PDict (d : list (string * pyval)).

(** [bool(v)] *)
Definition truthy (v : pyval) : bool :=
  match v with
  | PNone => false
  | PBool b => b
  | PInt z => negb (z =? 0)
  | PStr s => negb (String.eqb s "")
  | PList l => match l with [] => false | _ => true end
  | PDict d => match d with [] => false | _ => true end
  end.

(** [a and b] *)
Definition py_and (a b : pyval) : pyval := if truthy a then b else a.

Module Dict.
Definition t := list (string * pyval).

(** [d.get(k)], [None] when the key is missing *)
Fixpoint lookup (k : string) (d : t) : option pyval :=
  match d with
  | [] => None
  | (k', v) :: d' => if String.eqb k k' then Some v else lookup k d'
  end.

(** [d.get(k, default)] *)
Definition get (d : t) (k : string) (default : pyval) : pyval :=
  match lookup k d with Some v => v | None => default end.

Fixpoint remove (k : string) (d : t) : t :=
  match d with
  | [] => []
  | (k', v) :: d' =>
      if String.eqb k k' then remove k d' else (k', v) :: remove k d'
  end.

(** [d.pop(k, default)]: the value and the dict without the key *)
Definition pop (d : t) (k : string) (default : pyval) : pyval * t :=
  (get d k default, remove k d).

(** [d[k] = v]: an existing key keeps its place, a new one goes last *)
Fixpoint set (k : string) (v : pyval) (d : t) : t :=
  match d with
  | [] => [(k, v)]
  | (k', v') :: d' =>
      if String.eqb k k' then (k', v) :: d' else (k', v') :: set k v d'
  end.
End Dict.

(** ** Exceptions *)

(** The arguments of the format strings the backend raises with. *)
Inductive message : Type :=
| Error_GET (offset length : Z) (error : bytes)
| Unexpected_content_length (content_length expected : Z)
| Error_PUT (offset length : Z) (error : bytes)
| Error_PATCH (msg : pyval) (error : bytes)
| Error_OPTIONS (body : bytes)
| Error_EXTENTS (data : bytes)
| Error_GET_size (error : bytes)
| Expected_bytes (length pos : Z)
| Invalid_context (context : string)
| No_dirty_extents
| No_extents (context : string) (data : bytes).

Inductive exn : Type :=
| RuntimeError (m : message)
| UnsupportedOperation (m : message)   (* errors.UnsupportedOperation *)
| ValueError
| TypeError
| AttributeError
| KeyError (k : string)
| IndexError
| AssertionError
| RecursionError
| IncompleteRead      (* http_client.IncompleteRead *)
| OSError             (* socket and ssl errors *)
| InvalidURL.         (* http_client.InvalidURL *)

Inductive Result (A : Type) : Type :=
| Ok (a : A)
| Raise (e : exn).
Arguments Ok {A} a.
Arguments Raise {A} e.

(** ** State and exceptions

    A method is a function from the state before the call to its outcome
    and the state after it; what a call changed before it raised stays
    changed. *)

Definition M (S A : Type) : Type := S -> Result A * S.

Definition ret {S A} (a : A) : M S A := fun s => (Ok a, s).
Definition raise {S A} (e : exn) : M S A := fun s => (Raise e, s).
Definition bind {S A B} (c : M S A) (k : A -> M S B) : M S B :=
  fun s =>
    match c s with
    | (Ok a, s') => k a s'
    | (Raise e, s') => (Raise e, s')
    end.
Definition get {S} : M S S := fun s => (Ok s, s).
Definition modify {S} (f : S -> S) : M S unit := fun s => (Ok tt, f s).
Definition lift {S A} (r : Result A) : M S A := fun s => (r, s).

Declare Scope py_scope.
Delimit Scope py_scope with py.
Notation "x <- c ;; k" := (bind c (fun x => k))
  (at level 100, c at next level, right associativity) : py_scope.
Notation "c ;;; k" := (bind c (fun _ => k))
  (at level 100, right associativity) : py_scope.
Open Scope py_scope.

(** ** Builtins *)

Definition len {A} (l : list A) : Z := Z.of_nat (length l).

(** [b[:n]] *)
Definition prefix (n : nat) (b : bytes) : bytes := take n b.

(** The characters [int] skips around a literal.  Its argument is a
    string of Latin-1 characters; [int] first turns the white space
    outside ASCII, which in that range is NEL (133) and the no-break space
    (160), into blanks and then skips the white space of C: tab, line
    feed, vertical tab, form feed, carriage return and blank.  The
    separators 28 to 31 are kept as they are and make the literal
    invalid. *)
Definition is_space (c : ascii) : bool :=
  let n := nat_of_ascii c in
  ((9 <=? n) && (n <=? 13))%nat || (n =? 32)%nat
  || (n =? 133)%nat || (n =? 160)%nat.

Definition digit (c : ascii) : option Z :=
  let n := nat_of_ascii c in
  if ((48 <=? n) && (n <=? 57))%nat then Some (Z.of_nat n - 48) else None.

Fixpoint lstrip (s : string) : string :=
  match s with
  | String c s' => if is_space c then lstrip s' else s
  | EmptyString => s
  end.

Definition strip (s : string) : string :=
  String.rev (lstrip (String.rev (lstrip s))).

(** The digits of a decimal literal; a single underscore may stand between
    two digits. *)
Fixpoint digits (s : string) (acc : Z) (after_digit : bool) : option Z :=
  match s with
  | EmptyString => if after_digit then Some acc else None
  | String c s' =>
      if Ascii.eqb c "_" then
        if after_digit then digits s' acc false else None
      else
        match digit c with
        | Some d => digits s' (10 * acc + d) true
        | None => None
        end
  end.

(** [int(x)] for what [getheader] returns, as the interpreters do it that
    know the underscore in literals and no limit on their length: [None]
    is a TypeError, a string that is no decimal literal a ValueError. *)
Definition py_int (x : option string) : Result Z :=
  match x with
  | None => Raise TypeError
  | Some s =>
      let r :=
        match strip s with
        | String "-" s' => option_map Z.opp (digits s' 0 false)
        | String "+" s' => digits s' 0 false
        | s' => digits s' 0 false
        end in
      match r with Some z => Ok z | None => Raise ValueError end
  end.

(** [a + b] on the values above; [bool] is a subclass of [int]. *)
Definition py_add (a b : pyval) : Result pyval :=
  let as_int v :=
    match v with
    | PInt z => Some z
    | PBool b => Some (if b then 1 else 0)
    | _ => None
    end in
  match as_int a, as_int b with
  | Some x, Some y => Ok (PInt (x + y))
  | _, _ =>
      match a, b with
      | PStr x, PStr y => Ok (PStr (x +:+ y))
      | PList x, PList y => Ok (PList (x ++ y))
      | _, _ => Raise TypeError
      end
  end.

(** [for x in v]: the items iteration gives, a TypeError on a value that
    is not iterable. *)
Fixpoint chars (s : string) : list pyval :=
  match s with
  | EmptyString => []
  | String c s' => PStr (String c EmptyString) :: chars s'
  end.

Definition py_iter (v : pyval) : Result (list pyval) :=
  match v with
  | PList l => Ok l
  | PStr s => Ok (chars s)
  | PDict d => Ok (map (fun kv => PStr (fst kv)) d)
  | PNone | PBool _ | PInt _ => Raise TypeError
  end.

(** [v[k]] with a string key *)
Definition py_getitem (v : pyval) (k : string) : Result pyval :=
  match v with
  | PDict d =>
      match Dict.lookup k d with
      | Some x => Ok x
      | None => Raise (KeyError k)
      end
  | _ => Raise TypeError
  end.

(** *** [json.dumps]

    With the defaults of the library: [", "] and [": "] as separators and
    every character outside the printable ASCII range escaped. *)

Definition hex_digit (n : nat) : ascii :=
  ascii_of_nat (if (n <? 10)%nat then 48 + n else 87 + n).

Definition dquote : ascii := ascii_of_nat 34.

Definition escape (c : ascii) : string :=
  let n := nat_of_ascii c in
  if (n =? 34)%nat then String (ascii_of_nat 92) (String dquote EmptyString)
  else if (n =? 92)%nat then "\\"
  else if (n =? 10)%nat then "\n"
  else if (n =? 13)%nat then "\r"
  else if (n =? 9)%nat then "\t"
  else if (n =? 8)%nat then "\b"
  else if (n =? 12)%nat then "\f"
  else if ((32 <=? n) && (n <=? 126))%nat then String c EmptyString
  else "\u00" +:+ String (hex_digit (n / 16)) (String (hex_digit (n mod 16)) EmptyString).

Fixpoint escaped (s : string) : string :=
  match s with
  | EmptyString => EmptyString
  | String c s' => escape c +:+ escaped s'
  end.

Definition quoted (s : string) : string :=
  String dquote (escaped s) +:+ String dquote EmptyString.

Fixpoint join (sep : string) (l : list string) : string :=
  match l with
  | [] => EmptyString
  | [x] => x
  | x :: l' => x +:+ sep +:+ join sep l'
  end.

Fixpoint json_dumps (v : pyval) : string :=
  match v with
  | PNone => "null"
  | PBool b => if b then "true" else "false"
  | PInt z => pretty z
  | PStr s => quoted s
  | PList l => "[" +:+ join ", " (map json_dumps l) +:+ "]"
  | PDict d =>
      "{" +:+ join ", " (map (fun '(k, x) => quoted k +:+ ": " +:+ json_dumps x) d)
      +:+ "}"
  end.

(** [s.encode("utf-8")] on text in the ASCII range, which is all that
    [json_dumps] produces *)
Definition encode (s : string) : bytes := list_byte_of_string s.


(** ** The wire

    [http_client]: a request goes out, a response comes back.  The log of
    the connection keeps every request sent and every close, in order.
    Every request gets a response: the status line and the headers always
    arrive.  What may go wrong after that is part of the response: its
    body may end early. *)

Module http_client.
Definition OK : Z := 200.
Definition NO_CONTENT : Z := 204.
Definition PARTIAL_CONTENT : Z := 206.
Definition NOT_FOUND : Z := 404.
Definition METHOD_NOT_ALLOWED : Z := 405.
End http_client.

Record Request : Type := mkRequest {
  method : string;
  target : string;
  headers : list (string * string);
  body : bytes;
}.

(** How the body of a response ends.  [Whole]: all of it arrives, and
    [json] is what [json.loads(body.decode("utf-8"))] evaluates to on it
    ([None] when that raises ValueError: bytes that are no UTF-8 or no
    JSON text).  [Short]: the connection ends before the length the
    headers announce is reached; [res.read()] raises IncompleteRead, a
    read of a part returns what there is.  [Broken]: a chunked body breaks
    off; every read that runs into the break raises IncompleteRead. *)
Inductive Ending : Type :=
| Whole (json : option pyval)
| Short
| Broken.

(** A response as the client sees it: the status line, the headers in
    the order and with the values the parser of [http_client] holds
    them, the body in the pieces the reads of the socket hand out, and
    how the body ends. *)
Record Response : Type := Build_Response {
  status : Z;
  response_headers : list (string * string);
  packets : list bytes;
  ending : Ending;
}.

(** A response whose body arrives whole. *)
Definition mkResponse (status : Z) (headers : list (string * string))
  (packets : list bytes) (json : option pyval) : Response :=
  Build_Response status headers packets (Whole json).

Definition json (res : Response) : option pyval :=
  match ending res with
  | Whole json => json
  | Short | Broken => None
  end.

(** [s.lower()] on Latin-1 text *)
Definition lower_char (c : ascii) : ascii :=
  let n := nat_of_ascii c in
  if ((65 <=? n) && (n <=? 90))%nat
     || ((192 <=? n) && (n <=? 222) && negb (n =? 215))%nat
  then ascii_of_nat (n + 32) else c.

Fixpoint lower (s : string) : string :=
  match s with
  | EmptyString => EmptyString
  | String c s' => String (lower_char c) (lower s')
  end.

(** [headers.get_all(name)]: the values of all the headers of that name,
    whatever the case of its letters *)
Fixpoint get_all (hs : list (string * string)) (name : string) : list string :=
  match hs with
  | [] => []
  | (k, v) :: hs' =>
      if String.eqb (lower k) (lower name) then v :: get_all hs' name
      else get_all hs' name
  end.

(** [res.getheader(name)]: the values of a repeated header come joined *)
Definition getheader (res : Response) (name : string) : option string :=
  match get_all (response_headers res) name with
  | [] => None
  | values => Some (join ", " values)
  end.

(** The bytes of the body that arrive. *)
Definition arrived (res : Response) : bytes := concat (packets res).

(** [res.read()] *)
Definition read (res : Response) : Result bytes :=
  match ending res with
  | Whole _ => Ok (arrived res)
  | Short | Broken => Raise IncompleteRead
  end.

(** [res.read(n)] *)
Definition read_n (res : Response) (n : nat) : Result bytes :=
  match ending res with
  | Whole _ | Short => Ok (prefix n (arrived res))
  | Broken =>
      if (n <=? length (arrived res))%nat then Ok (prefix n (arrived res))
      else Raise IncompleteRead
  end.

(** [json.loads(data.decode("utf-8"))] on the body of [res] *)
Definition json_loads (res : Response) : Result pyval :=
  match json res with
  | Some v => Ok v
  | None => Raise ValueError
  end.

(** [HTTPSConnection(netloc, context=context)], where the context records
    the CA file and whether the certificate is verified, and
    [UnixHTTPConnection(path)], whose path is whatever the server named. *)
Inductive Connection : Type :=
| HTTPSConnection (netloc : string) (cafile : option string) (verify : bool)
| UnixHTTPConnection (path : pyval).

Inductive event : Type :=
| Exchange (con : Connection) (rq : Request)
| Close (con : Connection).

Definition Wire := list event.

(** The other side and the way to it: how the server answers a request
    given all that happened before; whether
    [ssl.create_default_context(cafile=...)] accepts the CA file and
    [HTTPSConnection(netloc, ...)] the network location, or what they
    raise; what [is_local()] returns or raises, which connects when there
    is no socket; and which Unix sockets accept a connection. *)
Record Peer : Type := mkPeer {
  respond : Wire -> Connection -> Request -> Response;
  create_default_context : option string -> Result unit;
  new_connection : string -> Result unit;
  is_local : Result bool;
  listening : string -> bool;
}.

(** The requests of a log, in order *)
Definition queries (w : Wire) : list Request :=
  omap (fun e => match e with Exchange _ rq => Some rq | Close _ => None end) w.

(** ** Extents *)

Module image.
(** Modelled from the spec: module [image] ([ZeroExtent], [DirtyExtent])
    is not part of the sources at hand.  The specification gives a
    [ZeroExtent] the fields start, length, zero and hole, and a
    [DirtyExtent] the fields start, length and dirty.  The backend
    builds both from three positional arguments (start, length and the
    flag of the context), so the extents it builds are never flagged as
    holes. *)
Inductive Extent : Type :=
| Zero (start length zero : pyval) (hole : bool)
| Dirty (start length dirty : pyval).

Definition ZeroExtent (start length zero : pyval) : Extent :=
  Zero start length zero false.

Definition DirtyExtent (start length dirty : pyval) : Extent :=
  Dirty start length dirty.

Definition start (e : Extent) : pyval :=
  match e with Zero s _ _ _ | Dirty s _ _ => s end.

Definition length (e : Extent) : pyval :=
  match e with Zero _ l _ _ | Dirty _ l _ => l end.
End image.

(** ** The backend *)

Module os.
Definition SEEK_SET : Z := 0.
Definition SEEK_CUR : Z := 1.
Definition SEEK_END : Z := 2.
End os.

Record Url : Type := mkUrl {
  scheme : string;
  netloc : string;
  path : string;
}.

Record Backend : Type := mkBackend {
  url : Url;
  _position : Z;
  _size : option pyval;
  _extents : gmap string (list image.Extent);
  _can_extents : pyval;
  _can_zero : pyval;
  _can_flush : pyval;
  _con : Connection;
}.

Record World : Type := mkWorld {
  self : Backend;
  wire : Wire;
}.

Definition set_position (n : Z) (b : Backend) : Backend :=
  mkBackend (url b) n (_size b) (_extents b)
            (_can_extents b) (_can_zero b) (_can_flush b) (_con b).

Definition set_size (n : pyval) (b : Backend) : Backend :=
  mkBackend (url b) (_position b) (Some n) (_extents b)
            (_can_extents b) (_can_zero b) (_can_flush b) (_con b).

Definition set_extents (context : string) (l : list image.Extent)
  (b : Backend) : Backend :=
  mkBackend (url b) (_position b) (_size b) (<[context := l]> (_extents b))
            (_can_extents b) (_can_zero b) (_can_flush b) (_con b).

Definition on_self (f : Backend -> Backend) : M World unit :=
  modify (fun w => mkWorld (f (self w)) (wire w)).

(** A generator run to its end: what it yielded, and the exception that
    ended it if one did. *)
Definition Gen (A : Type) : Type := World -> (list A * option exn) * World.

(** [list(g)] *)
Definition py_list {A} (g : Gen A) : M World (list A) :=
  fun w =>
    match g w with
    | ((l, None), w') => (Ok l, w')
    | ((_, Some e), w') => (Raise e, w')
    end.

(** [l[-1]] *)
Definition last_item {A} (l : list A) : Result A :=
  match last l with
  | Some x => Ok x
  | None => Raise IndexError
  end.

(** The depth at which the interpreter gives up on nested calls. *)
Definition recursion_limit : nat := 1000.

Section Backend.

Variable peer : Peer.

(** [con.request(...)] followed by [con.getresponse()] *)
Definition exchange (con : Connection) (rq : Request) : M Wire Response :=
  fun h => (Ok (respond peer h con rq), h ++ [Exchange con rq]).

(** [con.close()] *)
Definition close_connection (con : Connection) : M Wire unit :=
  modify (fun h => h ++ [Close con]).

(** The same two on the connection the backend holds. *)
Definition on_wire {A} (c : Connection -> M Wire A) : M World A :=
  fun w =>
    let (r, h) := c (_con (self w)) (wire w) in
    (r, mkWorld (self w) h).

Definition request (rq : Request) : M World Response :=
  on_wire (fun con => exchange con rq).

(** *** Private *)

(** The context is built first, then the connection; either may raise,
    and nothing has been connected yet. *)
Definition _create_connection (u : Url) (cafile : option string)
  (secure : bool) : Result Connection :=
  match create_default_context peer cafile with
  | Raise e => Raise e
  | Ok _ =>
      match new_connection peer (netloc u) with
      | Raise e => Raise e
      | Ok _ => Ok (HTTPSConnection (netloc u) cafile secure)
      end
  end.

Definition _options (con : Connection) (u : Url) : M Wire Dict.t :=
  res <- exchange con (mkRequest "OPTIONS" (path u) [] []) ;;
  body <- lift (read res) ;;
  let options : Dict.t := [] in
  if status res =? http_client.METHOD_NOT_ALLOWED then
    ret options
  else if status res =? http_client.NO_CONTENT then
    ret options
  else if negb (status res =? http_client.OK) then
    raise (RuntimeError (Error_OPTIONS body))
  else
    match json_loads res with
    | Raise ValueError => ret options
    | Raise e => raise e
    | Ok loaded =>
        (* options.pop("features", []) *)
        match loaded with
        | PDict d =>
            let (features, options) := Dict.pop d "features" (PList []) in
            features <- lift (py_iter features) ;;
            (fix flatten (fs : list pyval) (options : Dict.t)
               : M Wire Dict.t :=
               match fs with
               | [] => ret options
               | PStr feature :: fs' =>
                   flatten fs' (Dict.set feature (PBool true) options)
               | (PList _ | PDict _) :: _ => raise TypeError
               | (PNone | PBool _ | PInt _) :: fs' =>
                   (* a key that is no string: no lookup of the backend
                      asks for it *)
                   flatten fs' options
               end) features options
        | PList _ => raise TypeError
        | PNone | PBool _ | PInt _ | PStr _ => raise AttributeError
        end
    end.

(** [is_local()] is asked outside the [try]: what it raises leaves
    [_optimize_connection].  What the new connection raises is caught. *)
Definition _optimize_connection (con : Connection) (unix_socket : pyval)
  : M Wire Connection :=
  local <- lift (is_local peer) ;;
  if negb (truthy (py_and (PBool local) unix_socket)) then
    ret con
  else
    let con' := UnixHTTPConnection unix_socket in
    let connects :=
      match unix_socket with
      | PStr p => listening peer p
      | _ => false    (* connect() raises TypeError on such a path *)
      end in
    if connects then
      close_connection con ;;;
      ret con'
    else
      close_connection con' ;;;
      ret con.

Definition _get (length : Z) : M World Response :=
  w <- get ;;
  let b := self w in
  let headers :=
    [("range",
      "bytes=" +:+ pretty (_position b) +:+ "-"
               +:+ pretty (_position b + length - 1))] in
  res <- request (mkRequest "GET" (path (url b)) headers []) ;;
  if negb (status res =? http_client.PARTIAL_CONTENT) then
    error <- lift (read_n res 512) ;;
    raise (RuntimeError (Error_GET (_position b) length error))
  else
    content_length <- lift (py_int (getheader res "content-length")) ;;
    if negb (content_length =? length) then
      raise (RuntimeError (Unexpected_content_length content_length length))
    else
      ret res.

(** The request line and the headers of a PUT; [write] adds the body. *)
Definition _put_header (length : Z) : M World Request :=
  w <- get ;;
  let b := self w in
  let path := path (url b) in
  let path := if truthy (_can_flush b) then path +:+ "?flush=n" else path in
  ret (mkRequest "PUT" path
         [("content-length", pretty length);
          ("content-type", "application/octet-stream");
          ("content-range",
           "bytes " +:+ pretty (_position b) +:+ "-"
                    +:+ pretty (_position b + length - 1) +:+ "/*")]
         []).

Definition _patch (msg : pyval) : M World unit :=
  w <- get ;;
  let body := encode (json_dumps msg) in
  let headers := [("content-type", "application/json")] in
  res <- request (mkRequest "PATCH" (path (url (self w))) headers body) ;;
  if negb (status res =? http_client.OK) then
    error <- lift (read_n res 512) ;;
    raise (RuntimeError (Error_PATCH msg error))
  else
    lift (read res) ;;;
    ret tt.

Definition _get_extents (context : string) : Gen image.Extent :=
  fun w =>
    let (r, w) :=
      request (mkRequest "GET"
                 (path (url (self w)) +:+ "/extents?context=" +:+ context)
                 [] []) w in
    match r with
    | Raise e => (([], Some e), w)
    | Ok res =>
      match read res with
      | Raise e => (([], Some e), w)
      | Ok data =>
        if status res =? http_client.NOT_FOUND then
          (([], Some (UnsupportedOperation
                        (No_extents context (prefix 512 data)))), w)
        else if negb (status res =? http_client.OK) then
          (([], Some (RuntimeError (Error_EXTENTS (prefix 512 data)))), w)
        else
          match json_loads res with
          | Raise e => (([], Some e), w)
          | Ok extents =>
              let cls :=
                if String.eqb context "zero" then image.ZeroExtent
                else image.DirtyExtent in
              match py_iter extents with
              | Raise e => (([], Some e), w)
              | Ok items =>
                  ((fix each (items : list pyval)
                      : list image.Extent * option exn :=
                      match items with
                      | [] => ([], None)
                      | ext :: items' =>
                          match py_getitem ext "start",
                                py_getitem ext "length",
                                py_getitem ext context with
                          | Ok s, Ok l, Ok f =>
                              let (yielded, e) := each items' in
                              (cls s l f :: yielded, e)
                          | Raise e, _, _
                          | _, Raise e, _
                          | _, _, Raise e => ([], Some e)
                          end
                      end) items, w)
              end
          end
      end
    end.

Definition _emulate_head : M World Z :=
  w <- get ;;
  res <- request (mkRequest "GET" (path (url (self w))) [] []) ;;
  if negb (status res =? http_client.OK) then
    error <- lift (read_n res 512) ;;
    raise (RuntimeError (Error_GET_size error))
  else
    size <- lift (py_int (getheader res "content-length")) ;;
    on_wire close_connection ;;;
    ret size.

(** The loop of [_read_all] from position [pos] on: [stream] is what the
    response still has to deliver, one item for each [res.readinto],
    which fills no more than the room left in the view.  Once the stream
    has ended [res.readinto] returns 0, or raises IncompleteRead where a
    chunked body broke off. *)
Fixpoint _read_all_from (broken : bool) (pos : nat) (stream : list bytes)
  (view : bytes) : bytes * Result unit :=
  let length := length view in
  if (pos <? length)%nat then
    match stream with
    | [] =>
        if broken then (view, Raise IncompleteRead)
        else (view, Raise (RuntimeError
                             (Expected_bytes (Z.of_nat length) (Z.of_nat pos))))
    | packet :: stream' =>
        let received := take (length - pos) packet in
        let n := List.length received in
        if (n =? 0)%nat then
          (view, Raise (RuntimeError
                          (Expected_bytes (Z.of_nat length) (Z.of_nat pos))))
        else
          _read_all_from broken (pos + n) stream'
            (take pos view ++ received ++ drop (pos + n) view)
    end
  else
    (view, Ok tt).

Definition _read_all (res : Response) (buf : bytes) : bytes * Result unit :=
  _read_all_from
    (match ending res with Broken => true | Whole _ | Short => false end)
    0 (packets res) buf.

(** *** Construction *)

Definition __init__ (u : Url) (cafile : option string) (secure : bool)
  : M Wire Backend :=
  fun h =>
  match _create_connection u cafile secure with
  | Raise e => (Raise e, h)
  | Ok con =>
    match
      (options <- _options con u ;;
       let can_extents := Dict.get options "extents" (PBool false) in
       let can_zero := Dict.get options "zero" (PBool false) in
       let can_flush := Dict.get options "flush" (PBool false) in
       con' <- _optimize_connection con (Dict.get options "unix_socket" PNone) ;;
       ret (mkBackend u 0 None ∅ can_extents can_zero can_flush con')) h
    with
    | (Ok b, h') => (Ok b, h')
    | (Raise e, h') => (Raise e, h' ++ [Close con])
    end
  end.

(** [open(url, mode, ...)]: the arguments the backend ignores are left
    out. *)
Definition open (u : Url) (cafile : option string) (secure : bool)
  : M Wire Backend :=
  if String.eqb (scheme u) "https" then __init__ u cafile secure
  else raise AssertionError.

(** *** Public interface *)

Definition readinto (buf : bytes) : World -> (bytes * Result Z) * World :=
  fun w =>
    let length := len buf in
    match _get length w with
    | (Raise e, w') => ((buf, Raise e), w')
    | (Ok res, w') =>
        match _read_all res buf with
        | (buf', Raise e) => ((buf', Raise e), w')
        | (buf', Ok _) =>
            ((buf', Ok length),
             mkWorld (set_position (_position (self w') + length) (self w'))
                     (wire w'))
        end
    end.

Definition write (buf : bytes) : M World Z :=
  let length := len buf in
  head <- _put_header length ;;
  res <- request (mkRequest (method head) (target head) (headers head) buf) ;;
  w <- get ;;
  if negb (status res =? http_client.OK) then
    error <- lift (read_n res 512) ;;
    raise (RuntimeError (Error_PUT (_position (self w)) length error))
  else
    lift (read res) ;;;
    on_self (fun b => set_position (_position b + length) b) ;;;
    ret length.

Definition zero (length : Z) : M World Z :=
  w <- get ;;
  let msg :=
    PDict [("op", PStr "zero");
           ("offset", PInt (_position (self w)));
           ("size", PInt length);
           ("flush", PBool (negb (truthy (_can_flush (self w)))))] in
  _patch msg ;;;
  on_self (fun b => set_position (_position b + length) b) ;;;
  ret length.

Definition flush : M World unit :=
  _patch (PDict [("op", PStr "flush")]).

Definition tell : M World Z :=
  w <- get ;;
  ret (_position (self w)).

(** [extents] and [size] call each other; [depth] counts the calls that
    may still nest. *)
Fixpoint extents_at (depth : nat) (context : string) {struct depth}
  : Gen image.Extent :=
  match depth with
  | O => fun w => (([], Some RecursionError), w)
  | S depth => fun w =>
      if negb (String.eqb context "zero" || String.eqb context "dirty") then
        (([], Some (RuntimeError (Invalid_context context))), w)
      else if negb (truthy (_can_extents (self w))) then
        if String.eqb context "zero" then
          match size_at depth w with
          | (Ok n, w') =>
              (([image.ZeroExtent (PInt 0) n (PBool false)], None), w')
          | (Raise e, w') => (([], Some e), w')
          end
        else
          (([], Some (UnsupportedOperation No_dirty_extents)), w)
      else
        let (r, w) :=
          match _extents (self w) !! context with
          | None =>
              (received <- py_list (_get_extents context) ;;
               on_self (set_extents context received)) w
          | Some _ => (Ok tt, w)
          end in
        match r with
        | Raise e => (([], Some e), w)
        | Ok _ =>
            match _extents (self w) !! context with
            | Some cached => ((cached, None), w)
            | None => (([], Some (KeyError context)), w)
            end
        end
  end
with size_at (depth : nat) {struct depth} : M World pyval :=
  match depth with
  | O => raise RecursionError
  | S depth =>
      w <- get ;;
      match _size (self w) with
      | None =>
          if truthy (_can_extents (self w)) then
            all <- py_list (extents_at depth "zero") ;;
            last <- lift (last_item all) ;;
            size <- lift (py_add (image.start last) (image.length last)) ;;
            on_self (set_size size) ;;;
            ret size
          else
            size <- _emulate_head ;;
            on_self (set_size (PInt size)) ;;;
            ret (PInt size)
      | Some size => ret size
      end
  end.

Definition extents (context : string) : Gen image.Extent :=
  extents_at recursion_limit context.

Definition size : M World pyval := size_at recursion_limit.

Definition seek (n : Z) (how : Z) : M World Z :=
  (if how =? os.SEEK_SET then
     on_self (set_position n)
   else if how =? os.SEEK_CUR then
     on_self (fun b => set_position (_position b + n) b)
   else if how =? os.SEEK_END then
     end_ <- size ;;
     match py_add end_ (PInt n) with
     | Ok (PInt position) => on_self (set_position position)
     | Ok _ => raise TypeError
     | Raise e => raise e
     end
   else
     ret tt) ;;;
  tell.

Definition close : M World unit := on_wire close_connection.

(** *** Sequences of calls *)

Inductive call : Type :=
| Readinto (buf : bytes)
| Write (buf : bytes)
| Zero (length : Z)
| Flush
| Extents (context : string)
| Tell
| Seek (n how : Z)
| Size
| CloseBackend.

(** The state a call leaves behind, whether it returned or raised. *)
Definition after (c : call) (w : World) : World :=
  match c with
  | Readinto buf => snd (readinto buf w)
  | Write buf => snd (write buf w)
  | Zero length => snd (zero length w)
  | Flush => snd (flush w)
  | Extents context => snd (extents context w)
  | Tell => snd (tell w)
  | Seek n how => snd (seek n how w)
  | Size => snd (size w)
  | CloseBackend => snd (close w)
  end.

Definition run (calls : list call) (w : World) : World :=
  fold_left (fun w c => after c w) calls w.

End Backend.

Arguments exchange peer con rq h /.
Arguments request peer rq w /.
Arguments on_wire {A} c w /.
Arguments on_self f s /.

(** ** Requests *)

(** The request of [_get] for [length] bytes. *)
Definition get_request (w : World) (length : Z) : Request :=
  mkRequest "GET" (path (url (self w)))
    [("range",
      "bytes=" +:+ pretty (_position (self w)) +:+ "-"
               +:+ pretty (_position (self w) + length - 1))] [].

(** The headers of [_put_header]. *)
Definition put_headers (w : World) (length : Z) : list (string * string) :=
  [("content-length", pretty length);
   ("content-type", "application/octet-stream");
   ("content-range",
    "bytes " +:+ pretty (_position (self w)) +:+ "-"
             +:+ pretty (_position (self w) + length - 1) +:+ "/*")].

(** The request of [_patch]. *)
Definition patch_request (w : World) (msg : pyval) : Request :=
  mkRequest "PATCH" (path (url (self w)))
    [("content-type", "application/json")] (encode (json_dumps msg)).

(** The request of [_get_extents] and the one of [_emulate_head]. *)
Definition extents_request (w : World) (context : string) : Request :=
  mkRequest "GET" (path (url (self w)) +:+ "/extents?context=" +:+ context)
    [] [].

Definition head_request (w : World) : Request :=
  mkRequest "GET" (path (url (self w))) [] [].

(** The request of [_options]. *)
Definition options_request (u : Url) : Request :=
  mkRequest "OPTIONS" (path u) [] [].

(** What [open] returns for a server without capabilities. *)
Definition plain (u : Url) (con : Connection) : Backend :=
  mkBackend u 0 None ∅ (PBool false) (PBool false) (PBool false) con.

(** ** Error kinds

    The specification speaks of error kinds; the backend raises a
    RuntimeError for every failure on the wire that it finds itself (an
    unexpected status, a content length that does not match, a read that
    returns nothing before the buffer is full) and
    [errors.UnsupportedOperation] for an operation the server lacks.
    What [http_client] raises passes through as it is. *)

Definition is_ProtocolError (e : exn) : bool :=
  match e with RuntimeError _ => true | _ => false end.

Definition is_UnsupportedOperation (e : exn) : bool :=
  match e with UnsupportedOperation _ => true | _ => false end.

(** ** Servers and states for the examples *)

(** A server that answers the n-th request of a connection with the n-th
    response of a script, and with [otherwise] once the script is used
    up. *)
Definition scripted (script : list Response) (otherwise : Response) : Peer :=
  mkPeer (fun h _ _ => nth (List.length (queries h)) script otherwise)
         (fun _ => Ok tt) (fun _ => Ok tt) (Ok false) (fun _ => false).

Definition ticket : Url := mkUrl "https" "host:54322" "/images/ticket".

Definition https : Connection := HTTPSConnection "host:54322" None true.

(** A backend right after [open], with the given answers to
    [options.get("extents", False)] and [options.get("flush", False)]. *)
Definition opened (can_extents can_flush : pyval) : World :=
  mkWorld (mkBackend ticket 0 None ∅ can_extents (PBool false) can_flush https) [].

Definition b (s : string) : bytes := list_byte_of_string s.

Definition ok_empty : Response := mkResponse 200 [] [] None.

(** A server that has no extents and reports an image of 196608 bytes,
    and one that lists two extents for it. *)
Definition sized_server : Peer :=
  scripted [mkResponse 200 [("content-length", "196608")] [] None] ok_empty.

Definition two_extents : list image.Extent :=
  [image.Zero (PInt 0) (PInt 131072) (PBool true) false;
   image.Zero (PInt 131072) (PInt 65536) (PBool false) false].

Definition extents_server : Peer :=
  scripted
    [mkResponse 200 [] []
       (Some (PList [PDict [("start", PInt 0); ("length", PInt 131072);
                            ("zero", PBool true)];
                     PDict [("start", PInt 131072); ("length", PInt 65536);
                            ("zero", PBool false)]]))]
    (mkResponse 404 [] [b "no such context"] None).

(** What no call changes: the URL, the capability flags, the connection,
    and an entry of the extent cache once it is there. *)
Definition settled (w w' : World) : Prop :=
  url (self w') = url (self w) /\
  _can_extents (self w') = _can_extents (self w) /\
  _can_zero (self w') = _can_zero (self w) /\
  _can_flush (self w') = _can_flush (self w) /\
  _con (self w') = _con (self w) /\
  forall context l,
    _extents (self w) !! context = Some l ->
    _extents (self w') !! context = Some l.

(** ** What a response delivers *)

(** The bytes a response hands out before the first read that returns
    nothing: the pieces up to the first empty one. *)
Fixpoint delivered (stream : list bytes) : bytes :=
  match stream with
  | [] => []
  | [] :: _ => []
  | packet :: stream' => packet ++ delivered stream'
  end.

(** Whether every read of the stream hands out something. *)
Definition steady (stream : list bytes) : bool :=
  forallb (fun packet => negb (length packet =? 0)%nat) stream.

(** Whether reading a response to its end runs into the break of a
    chunked body. *)
Definition breaks (res : Response) : bool :=
  match ending res with
  | Broken => steady (packets res)
  | Whole _ | Short => false
  end.

(** ** Outcomes of calls *)

(** The exception a call raises, if it raises. *)
Definition failure (peer : Peer) (c : call) (w : World) : option exn :=
  let raised {A} (r : Result A) : option exn :=
    match r with Ok _ => None | Raise e => Some e end in
  match c with
  | Readinto buf => raised (snd (fst (readinto peer buf w)))
  | Write buf => raised (fst (write peer buf w))
  | Zero length => raised (fst (zero peer length w))
  | Flush => raised (fst (flush peer w))
  | Extents context => snd (fst (extents peer context w))
  | Tell => raised (fst (tell w))
  | Seek n how => raised (fst (seek peer n how w))
  | Size => raised (fst (size peer w))
  | CloseBackend => raised (fst (close w))
  end.

(** The bytes of a response that the message of an exception quotes. *)
Definition carried (m : message) : bytes :=
  match m with
  | Error_GET _ _ d | Error_PUT _ _ d | Error_PATCH _ d
  | Error_OPTIONS d | Error_EXTENTS d | Error_GET_size d
  | No_extents _ d => d
  | Unexpected_content_length _ _ | Expected_bytes _ _
  | Invalid_context _ | No_dirty_extents => []
  end.

(** An exception whose message quotes no more than 512 bytes of a
    response. *)
Definition bounded (e : exn) : Prop :=
  match e with
  | RuntimeError m | UnsupportedOperation m => (length (carried m) <= 512)%nat
  | _ => True
  end.

(** The calls that move data or the cursor; the others only ask. *)
Definition moves (c : call) : bool :=
  match c with
  | Readinto _ | Write _ | Zero _ | Seek _ _ => true
  | Flush | Extents _ | Tell | Size | CloseBackend => false
  end.

(** A size, once resolved, is still there. *)
Definition size_kept (w w' : World) : Prop :=
  forall n, _size (self w) = Some n -> _size (self w') = Some n.

(** ** More servers for the examples *)

(** A server that lists no extents at all, one that has no such resource,
    and one whose second record lacks its length. *)
Definition empty_listing_server : Peer :=
  scripted [mkResponse 200 [] [b "[]"] (Some (PList []))] ok_empty.

Definition forbidding_server : Peer :=
  scripted [] (mkResponse 403 [] [b "forbidden"] None).

Definition not_found_server : Peer :=
  scripted [] (mkResponse 404 [] [b "no extents here"] None).

Definition broken_listing_server : Peer :=
  scripted
    [mkResponse 200 [] []
       (Some (PList [PDict [("start", PInt 0); ("length", PInt 131072);
                            ("zero", PBool true)];
                     PDict [("start", PInt 131072); ("zero", PBool false)]]))]
    ok_empty.

(** A server that has no listing for the first request and one extent
    for every later one. *)
Definition late_listing_server : Peer :=
  scripted
    [mkResponse 404 [] [b "not yet"] None]
    (mkResponse 200 [] []
       (Some (PList [PDict [("start", PInt 0); ("length", PInt 4096);
                            ("zero", PBool false)]]))).

(** A server whose answers are cut off in the middle of the body. *)
Definition cut_body_server : Peer :=
  scripted [] (Build_Response 200 [("content-length", "64")] [b "[{"] Short).

(** One record of an extents listing and the extent it stands for. *)
Definition decodes (context : string) (item : pyval) (ext : image.Extent)
  : Prop :=
  exists s l f,
    py_getitem item "start" = Ok s /\
    py_getitem item "length" = Ok l /\
    py_getitem item context = Ok f /\
    ext = (if String.eqb context "zero" then image.ZeroExtent
           else image.DirtyExtent) s l f.

(** A daemon on the local host that names its features and its Unix
    socket, and listens on that socket. *)
Definition local_daemon : Peer :=
  mkPeer (fun _ _ _ =>
            mkResponse 200 [] []
              (Some (PDict [("features", PList [PStr "extents"; PStr "zero"]);
                            ("unix_socket", PStr "/run/imageio.sock")])))
         (fun _ => Ok tt) (fun _ => Ok tt) (Ok true)
         (fun p => String.eqb p "/run/imageio.sock").

(** The same daemon seen from another host. *)
Definition remote_daemon : Peer :=
  mkPeer (respond local_daemon) (fun _ => Ok tt) (fun _ => Ok tt) (Ok false)
         (fun _ => false).

(** The same daemon when the socket to it is gone and connecting again
    fails. *)
Definition unreachable_daemon : Peer :=
  mkPeer (respond local_daemon) (fun _ => Ok tt) (fun _ => Ok tt)
         (Raise OSError) (fun _ => false).

(** A server whose refusals are longer than 512 bytes. *)
Definition verbose_server : Peer :=
  scripted [] (mkResponse 500 [] [repeat Byte.x21 600] None).

(** * The memory backend

    [common/ovirt_imageio_common/backends/memory.py]: the backend the
    tests use, an [io.BytesIO] behind a check of the mode. *)

Module memory.

Section Interpreter.

(** Whether the interpreter finds the memory for [n] bytes when it has to
    allocate them; where it does not, it raises MemoryError. *)
Variable room : nat -> bool.

(** The largest [Py_ssize_t], and the range of a C [int]. *)
Definition PY_SSIZE_T_MAX : Z := 2 ^ 63 - 1.
Definition INT_MAX : Z := 2 ^ 31 - 1.

Definition is_ssize_t (n : Z) : bool :=
  (- PY_SSIZE_T_MAX - 1 <=? n) && (n <=? PY_SSIZE_T_MAX).

Definition is_int (n : Z) : bool := (- INT_MAX - 1 <=? n) && (n <=? INT_MAX).

(** [io.BytesIO] as CPython 3.6 and later implement it: the bytes it
    holds, the position, which may lie behind the last byte, and whether
    it has been closed. *)
Record BytesIO : Type := mkBytesIO {
  getvalue : bytes;
  position : nat;
  closed : bool;
}.

Inductive error : Type :=
| ValueError                 (* closed file, negative offset or size, bad whence *)
| Unsupported_mode (mode : string)   (* the ValueError of [open] *)
| IOError (msg : string)
| UnsupportedOperation       (* io.UnsupportedOperation *)
| OverflowError
| MemoryError.

Inductive result (A : Type) : Type :=
| Return (a : A)
| Raised (e : error).
Arguments Return {A} a.
Arguments Raised {A} e.

Definition zeroes (n : nat) : bytes := repeat Byte.x00 n.

(** [b"\0" * count]: a count that is no [Py_ssize_t] is an OverflowError,
    a count below 1 gives no bytes *)
Definition repeat_zero (count : Z) : result bytes :=
  if negb (is_ssize_t count) then Raised OverflowError
  else if count <=? 0 then Return []
  else if room (Z.to_nat count) then Return (zeroes (Z.to_nat count))
  else Raised MemoryError.

(** [BytesIO(data)]; no data gives an empty buffer *)
Definition BytesIO_new (data : option bytes) : BytesIO :=
  mkBytesIO (match data with Some d => d | None => [] end) 0 false.

(** [f.readinto(buf)]: what is left from the position on, as far as the
    buffer has room *)
Definition BytesIO_readinto (buf : bytes) (f : BytesIO)
  : (bytes * result Z) * BytesIO :=
  if closed f then ((buf, Raised ValueError), f)
  else
    let n := Nat.min (length buf) (length (getvalue f) - position f) in
    ((take n (drop (position f) (getvalue f)) ++ drop n buf,
      Return (Z.of_nat n)),
     mkBytesIO (getvalue f) (position f + n) false).

(** [f.write(data)]: writing nothing changes nothing; an end behind the
    largest [Py_ssize_t] is an OverflowError; a buffer that has to grow
    needs the memory for it; a position behind the end is reached by
    padding with zero bytes *)
Definition BytesIO_write (data : bytes) (f : BytesIO) : result Z * BytesIO :=
  if closed f then (Raised ValueError, f)
  else
    match data with
    | [] => (Return 0, f)
    | _ =>
        let endpos := (position f + length data)%nat in
        if PY_SSIZE_T_MAX <? Z.of_nat endpos then (Raised OverflowError, f)
        else if (length (getvalue f) <? endpos)%nat && negb (room endpos) then
          (Raised MemoryError, f)
        else
          let padded :=
            getvalue f ++ zeroes (position f - length (getvalue f)) in
          (Return (Z.of_nat (length data)),
           mkBytesIO (take (position f) padded ++ data
                      ++ drop endpos padded)
                     endpos false)
    end.

Definition BytesIO_tell (f : BytesIO) : result Z :=
  if closed f then Raised ValueError else Return (Z.of_nat (position f)).

(** [f.seek(pos, whence)]: the arguments are converted to a [Py_ssize_t]
    and a C [int] before anything else; a negative absolute offset and an
    unknown whence are ValueErrors; a relative offset that leads behind
    the largest [Py_ssize_t] is an OverflowError, one that leads before
    the start leads to the start *)
Definition BytesIO_seek (pos whence : Z) (f : BytesIO) : result Z * BytesIO :=
  if negb (is_ssize_t pos && is_int whence) then (Raised OverflowError, f)
  else if closed f then (Raised ValueError, f)
  else if (pos <? 0) && (whence =? 0) then (Raised ValueError, f)
  else
    let relative (base : Z) : result Z :=
      if PY_SSIZE_T_MAX - base <? pos then Raised OverflowError
      else Return (pos + base) in
    let target :=
      if whence =? 1 then relative (Z.of_nat (position f))
      else if whence =? 2 then relative (Z.of_nat (length (getvalue f)))
      else if whence =? 0 then Return pos
      else Raised ValueError in
    match target with
    | Raised e => (Raised e, f)
    | Return pos =>
        let pos := Z.max 0 pos in
        (Return pos, mkBytesIO (getvalue f) (Z.to_nat pos) false)
    end.

(** [f.truncate(size)]: the size is converted to a [Py_ssize_t] first;
    cuts, never extends, and leaves the position *)
Definition BytesIO_truncate (size : Z) (f : BytesIO) : result Z * BytesIO :=
  if negb (is_ssize_t size) then (Raised OverflowError, f)
  else if closed f then (Raised ValueError, f)
  else if size <? 0 then (Raised ValueError, f)
  else
    (Return size,
     mkBytesIO (take (Z.to_nat size) (getvalue f)) (position f) false).

Definition BytesIO_flush (f : BytesIO) : result unit :=
  if closed f then Raised ValueError else Return tt.

Definition BytesIO_close (f : BytesIO) : BytesIO :=
  mkBytesIO (getvalue f) (position f) true.

Record Backend : Type := mkBackend {
  _mode : string;
  _buf : BytesIO;
}.

(** [Backend(mode, data)] *)
Definition __init__ (mode : string) (data : option bytes) : Backend :=
  mkBackend mode (BytesIO_new data).

Definition open (mode : string) : result Backend :=
  if negb (String.eqb mode "r" || String.eqb mode "w" || String.eqb mode "r+")
  then Raised (Unsupported_mode mode)
  else Return (__init__ mode None).

Definition readable (self : Backend) : bool :=
  String.eqb (_mode self) "r" || String.eqb (_mode self) "r+".

Definition writable (self : Backend) : bool :=
  String.eqb (_mode self) "w" || String.eqb (_mode self) "r+".

Definition readinto (buf : bytes) (self : Backend)
  : (bytes * result Z) * Backend :=
  if negb (readable self) then
    ((buf, Raised (IOError "Unsupproted operation: read")), self)
  else
    let (r, f) := BytesIO_readinto buf (_buf self) in
    (r, mkBackend (_mode self) f).

Definition write (buf : bytes) (self : Backend) : result Z * Backend :=
  if negb (writable self) then
    (Raised (IOError "Unsupproted operation: write"), self)
  else
    let (r, f) := BytesIO_write buf (_buf self) in
    (r, mkBackend (_mode self) f).

Definition tell (self : Backend) : result Z := BytesIO_tell (_buf self).

Definition seek (pos how : Z) (self : Backend) : result Z * Backend :=
  let (r, f) := BytesIO_seek pos how (_buf self) in
  (r, mkBackend (_mode self) f).

Definition truncate (size : Z) (self : Backend) : result unit * Backend :=
  if negb (writable self) then
    (Raised (IOError "Unsupproted operation: truncate"), self)
  else
    match BytesIO_truncate size (_buf self) with
    | (Return _, f) => (Return tt, mkBackend (_mode self) f)
    | (Raised e, f) => (Raised e, mkBackend (_mode self) f)
    end.

Definition fileno (self : Backend) : result Z := Raised UnsupportedOperation.

Definition flush (self : Backend) : result unit := BytesIO_flush (_buf self).

Definition close (self : Backend) : Backend :=
  mkBackend (_mode self) (BytesIO_close (_buf self)).

(** [zero(count)]: the zero bytes are built first, then written *)
Definition zero (count : Z) (self : Backend) : result unit * Backend :=
  if negb (writable self) then
    (Raised (IOError "Unsupproted operation: truncate"), self)
  else
    match repeat_zero count with
    | Raised e => (Raised e, self)
    | Return data =>
        match BytesIO_write data (_buf self) with
        | (Return _, f) => (Return tt, mkBackend (_mode self) f)
        | (Raised e, f) => (Raised e, mkBackend (_mode self) f)
        end
    end.

Definition trim := zero.

(** Sequences of calls, each taken whether it returns or raises. *)
Inductive call : Type :=
| Readinto (buf : bytes)
| Write (buf : bytes)
| Seek (pos how : Z)
| Truncate (size : Z)
| Zero (count : Z)
| Trim (count : Z)
| Close.

Definition after (c : call) (self : Backend) : Backend :=
  match c with
  | Readinto buf => snd (readinto buf self)
  | Write buf => snd (write buf self)
  | Seek pos how => snd (seek pos how self)
  | Truncate size => snd (truncate size self)
  | Zero count => snd (zero count self)
  | Trim count => snd (trim count self)
  | Close => close self
  end.

Definition run (calls : list call) (self : Backend) : Backend :=
  fold_left (fun self c => after c self) calls self.

End Interpreter.

Arguments Return {A} a.
Arguments Raised {A} e.

End memory.

(** ** Properties *)

Ltac run :=
  unfold bind, ret, raise, get, modify, lift; cbn [fst snd self wire].

(** Both outcomes of every read of a body the goal mentions. *)
Ltac reads :=
  repeat match goal with
         | |- context [read_n ?res ?n] => destruct (read_n res n)
         | |- context [read ?res] => destruct (read res)
         end.

Section Reading.

Variable peer : Peer.

(** C1: a ranged GET answered with status 206 and a Content-Length that
    is not the length of the buffer makes [readinto] raise the
    RuntimeError of a protocol failure; the buffer holds what it held
    before the call and the backend, its position included, is as it
    was: only the request was added to the log. *)
Theorem readinto_content_length_mismatch (buf : bytes) (w : World)
    (content_length : Z) :
  let rq := get_request w (len buf) in
  let res := respond peer (wire w) (_con (self w)) rq in
  status res = http_client.PARTIAL_CONTENT ->
  py_int (getheader res "content-length") = Ok content_length ->
  content_length <> len buf ->
  exists e w',
    readinto peer buf w = ((buf, Raise e), w') /\
    e = RuntimeError (Unexpected_content_length content_length (len buf)) /\
    is_ProtocolError e = true /\
    self w' = self w /\
    _position (self w') = _position (self w) /\
    wire w' = wire w ++ [Exchange (_con (self w)) rq].
Proof.
  intros rq res Hstatus Hlength Hne.
  eexists _, _.
  unfold readinto, _get. run. cbn [request on_wire exchange].
  fold (get_request w (len buf)). fold rq. fold res.
  rewrite Hstatus, Z.eqb_refl. cbn [negb].
  rewrite Hlength.
  apply Z.eqb_neq in Hne. rewrite Hne. cbn [negb].
  repeat split; reflexivity.
Qed.

(** Whatever the Content-Length of a 206 answer is, if [int] does not make
    the length of the buffer of it, [readinto] raises with the buffer and
    the backend as they were. *)
Lemma readinto_rejected_untouched (buf : bytes) (w : World) :
  let rq := get_request w (len buf) in
  let res := respond peer (wire w) (_con (self w)) rq in
  status res = http_client.PARTIAL_CONTENT ->
  py_int (getheader res "content-length") <> Ok (len buf) ->
  exists e,
    readinto peer buf w =
    ((buf, Raise e), mkWorld (self w) (wire w ++ [Exchange (_con (self w)) rq])).
Proof.
  intros rq res Hstatus Hlength.
  unfold readinto, _get. run. cbn [request on_wire exchange].
  fold (get_request w (len buf)). fold rq. fold res.
  rewrite Hstatus, Z.eqb_refl. cbn [negb].
  destruct (py_int _) as [n | e]; cbn.
  - destruct (Z.eqb_spec n (len buf)) as [-> | Hne]; [now destruct Hlength |].
    eexists. reflexivity.
  - eexists. reflexivity.
Qed.

End Reading.

Lemma readinto_content_length_mismatch_witness :
  exists e w',
    readinto (scripted [mkResponse 206 [("content-length", "3")] [b "abc"] None]
                       ok_empty)
             (b "....") (opened (PBool false) (PBool false))
    = ((b "....", Raise e), w') /\
    e = RuntimeError (Unexpected_content_length 3 4) /\
    is_ProtocolError e = true /\
    self w' = self (opened (PBool false) (PBool false)) /\
    _position (self w') = 0 /\
    wire w' = [Exchange https
                 (mkRequest "GET" "/images/ticket" [("range", "bytes=0-3")] [])].
Proof.
  apply (readinto_content_length_mismatch
           (scripted [mkResponse 206 [("content-length", "3")] [b "abc"] None]
                     ok_empty)
           (b "....") (opened (PBool false) (PBool false)) 3).
  - reflexivity.
  - reflexivity.
  - discriminate.
Defined.

Lemma append_assoc (s t u : string) : (s +:+ t) +:+ u = s +:+ t +:+ u.
Proof.
  induction s as [| c s IH]; [reflexivity |].
  change (String c ((s +:+ t) +:+ u) = String c (s +:+ t +:+ u)).
  now rewrite IH.
Qed.

Section Writing.

Variable peer : Peer.

(** C2, as the code has it: [write] sends one PUT with the buffer as its
    body; the request goes to the resource path followed by [?flush=n]
    when [can_flush] is true and to the bare resource path when
    [can_flush] is false. *)
Theorem write_put_target (buf : bytes) (w : World) :
  exists rq,
    wire (snd (write peer buf w)) = wire w ++ [Exchange (_con (self w)) rq] /\
    method rq = "PUT" /\
    headers rq = put_headers w (len buf) /\
    body rq = buf /\
    target rq =
      if truthy (_can_flush (self w))
      then path (url (self w)) +:+ "?flush=n"
      else path (url (self w)).
Proof.
  unfold write, _put_header. run. cbn [request on_wire exchange].
  eexists. split.
  - match goal with
    | |- context [if negb ?c then _ else _] => destruct c
    end; cbn [negb].
    + destruct (read _); reflexivity.
    + destruct (read_n _ _); reflexivity.
  - cbn. repeat split; reflexivity.
Qed.

(** C9, as the code has it: [zero] sends one PATCH to the resource path,
    with the header content-type: application/json and as body the JSON
    text of the message with the position as offset, the length as size
    and a flush flag that is the negation of [can_flush]; [can_zero]
    plays no part.  When the answer has status 200 and its body arrives
    whole, the length is returned and the position has advanced by the
    length, with the rest of the backend as it was. *)
Theorem zero_patch (length : Z) (w : World) :
  let quote (s : string) := String "034" (s +:+ String "034" "") in
  let text :=
    "{" +:+ quote "op" +:+ ": " +:+ quote "zero" +:+ ", "
        +:+ quote "offset" +:+ ": " +:+ pretty (_position (self w)) +:+ ", "
        +:+ quote "size" +:+ ": " +:+ pretty length +:+ ", "
        +:+ quote "flush" +:+ ": "
        +:+ (if truthy (_can_flush (self w)) then "false" else "true")
        +:+ "}" in
  let rq :=
    mkRequest "PATCH" (path (url (self w)))
      [("content-type", "application/json")] (list_byte_of_string text) in
  let sent := wire w ++ [Exchange (_con (self w)) rq] in
  let res := respond peer (wire w) (_con (self w)) rq in
  wire (snd (zero peer length w)) = sent /\
  (forall json,
     status res = 200 -> ending res = Whole json ->
     zero peer length w =
       (Ok length,
        mkWorld (mkBackend (url (self w)) (_position (self w) + length)
                   (_size (self w)) (_extents (self w))
                   (_can_extents (self w)) (_can_zero (self w))
                   (_can_flush (self w)) (_con (self w)))
                sent)).
Proof.
  intros quote text rq sent res.
  assert (Hrq : patch_request w
                  (PDict [("op", PStr "zero");
                          ("offset", PInt (_position (self w)));
                          ("size", PInt length);
                          ("flush",
                           PBool (negb (truthy (_can_flush (self w)))))])
                = rq).
  { unfold patch_request, rq, encode. f_equal. f_equal.
    unfold text, quote. cbn [json_dumps map join].
    destruct (truthy (_can_flush (self w))); cbn [negb];
      now rewrite !append_assoc. }
  subst sent.
  unfold zero, _patch. run. cbn [request on_wire exchange].
  fold (patch_request w
          (PDict [("op", PStr "zero");
                  ("offset", PInt (_position (self w)));
                  ("size", PInt length);
                  ("flush", PBool (negb (truthy (_can_flush (self w)))))])).
  rewrite Hrq. fold res.
  destruct (status res =? http_client.OK) eqn:Hstatus; cbn [negb].
  - unfold read. split.
    + destruct (ending res); reflexivity.
    + intros json _ Hwhole. rewrite Hwhole. reflexivity.
  - split.
    + destruct (read_n res 512); reflexivity.
    + intros json H. rewrite H in Hstatus. discriminate.
Qed.

(** C10: a [seek] whose [how] is none of SEEK_SET, SEEK_CUR and SEEK_END
    returns the position and changes nothing. *)
Theorem seek_unknown_whence (n how : Z) (w : World) :
  how <> os.SEEK_SET -> how <> os.SEEK_CUR -> how <> os.SEEK_END ->
  seek peer n how w = (Ok (_position (self w)), w).
Proof.
  intros Hset Hcur Hend.
  apply Z.eqb_neq in Hset, Hcur, Hend.
  unfold seek, tell. run. rewrite Hset, Hcur, Hend. reflexivity.
Qed.

End Writing.

Lemma zero_patch_witness :
  let w := opened (PBool false) (PBool false) in
  let rq :=
    mkRequest "PATCH" "/images/ticket" [("content-type", "application/json")]
      (b ("{" +:+ String "034" "op" +:+ String "034" ": "
              +:+ String "034" "zero" +:+ String "034" ", "
              +:+ String "034" "offset" +:+ String "034" ": 0, "
              +:+ String "034" "size" +:+ String "034" ": 4096, "
              +:+ String "034" "flush" +:+ String "034" ": true}")) in
  wire (snd (zero (scripted [] ok_empty) 4096 w)) = [Exchange https rq] /\
  zero (scripted [] ok_empty) 4096 w
  = (Ok 4096,
     mkWorld (mkBackend ticket 4096 None ∅ (PBool false) (PBool false)
                (PBool false) https)
             [Exchange https rq]).
Proof.
  pose proof (zero_patch (scripted [] ok_empty) 4096
                (opened (PBool false) (PBool false))) as [Hwire Hok].
  split; [exact Hwire | apply (Hok None); reflexivity].
Defined.

Lemma seek_unknown_whence_witness :
  seek (scripted [] ok_empty) 10 3 (opened (PBool false) (PBool false))
  = (Ok 0, opened (PBool false) (PBool false)).
Proof.
  apply (seek_unknown_whence (scripted [] ok_empty) 10 3
           (opened (PBool false) (PBool false))); discriminate.
Defined.

(** ** Extents *)

Lemma string_length_app (s t : string) :
  String.length (s +:+ t) = (String.length s + String.length t)%nat.
Proof.
  induction s as [|c s IH]; [reflexivity |].
  change (S (String.length (s +:+ t)) = S (String.length s + String.length t)).
  now rewrite IH.
Qed.

(** The request [size] falls back on is not a request for extents. *)
Lemma head_request_no_extents_request (w : World) (context : string) :
  head_request w <> extents_request w context.
Proof.
  unfold head_request, extents_request. intros H.
  injection H as H. apply (f_equal String.length) in H.
  rewrite !string_length_app in H. cbn in H. lia.
Qed.

Section Extents.

Variable peer : Peer.

(** [_get_extents] sends its request and nothing else, and leaves the
    backend alone. *)
Lemma _get_extents_world (context : string) (w : World) :
  snd (_get_extents peer context w) =
  mkWorld (self w)
          (wire w ++ [Exchange (_con (self w)) (extents_request w context)]).
Proof.
  unfold _get_extents. cbn [request on_wire exchange].
  fold (extents_request w context).
  repeat match goal with
         | |- context [if ?c then _ else _] => destruct c
         | |- context [match ?x with _ => _ end] => destruct x
         end; reflexivity.
Qed.

(** Without extent support [size] does not call [extents] back. *)
Lemma size_at_without_extents (d d' : nat) (w : World) :
  truthy (_can_extents (self w)) = false ->
  size_at peer (S d) w = size_at peer (S d') w.
Proof.
  intros H. cbn [size_at]. run.
  destruct (_size (self w)); [reflexivity |].
  rewrite H. reflexivity.
Qed.

(** With extent support [extents] does not call [size]. *)
Lemma extents_at_with_extents (d d' : nat) (context : string) (w : World) :
  truthy (_can_extents (self w)) = true ->
  extents_at peer (S d) context w = extents_at peer (S d') context w.
Proof.
  intros H. cbn [extents_at]. rewrite H. reflexivity.
Qed.

(** Two nested calls are all there ever are: the depth never runs out. *)
Lemma extents_at_depth (d : nat) (context : string) (w : World) :
  extents_at peer (S (S d)) context w = extents_at peer 2 context w.
Proof.
  destruct (truthy (_can_extents (self w))) eqn:H.
  - now apply extents_at_with_extents.
  - cbn [extents_at]. rewrite H.
    rewrite (size_at_without_extents d 0 w H). reflexivity.
Qed.

Lemma size_at_depth (d : nat) (w : World) :
  size_at peer (S (S d)) w = size_at peer 2 w.
Proof.
  destruct (truthy (_can_extents (self w))) eqn:H.
  - cbn [size_at]. run.
    destruct (_size (self w)); [reflexivity |].
    rewrite H. unfold py_list.
    rewrite (extents_at_with_extents d 0 "zero" w H). reflexivity.
  - now apply size_at_without_extents.
Qed.

Lemma extents_depth (context : string) (w : World) :
  extents peer context w = extents_at peer 2 context w.
Proof. apply (extents_at_depth 998). Qed.

Lemma size_depth (w : World) : size peer w = size_at peer 2 w.
Proof. apply (size_at_depth 998). Qed.

(** C7, as the code has it: a context that is neither "zero" nor "dirty"
    makes [extents] raise a RuntimeError, the exception of a protocol
    failure and not [UnsupportedOperation]; nothing is yielded and nothing
    is sent. *)
Theorem extents_invalid_context (context : string) (w : World) :
  context <> "zero" -> context <> "dirty" ->
  exists e,
    extents peer context w = (([], Some e), w) /\
    e = RuntimeError (Invalid_context context) /\
    is_ProtocolError e = true /\
    is_UnsupportedOperation e = false.
Proof.
  intros Hzero Hdirty. eexists. split; [| repeat split].
  rewrite extents_depth. cbn [extents_at].
  apply String.eqb_neq in Hzero, Hdirty. rewrite Hzero, Hdirty. reflexivity.
Qed.

(** C5: without extent support, [extents("dirty")] raises
    [UnsupportedOperation] before it yields anything, and sends
    nothing. *)
Theorem extents_dirty_unsupported (w : World) :
  truthy (_can_extents (self w)) = false ->
  exists e,
    extents peer "dirty" w = (([], Some e), w) /\
    e = UnsupportedOperation No_dirty_extents /\
    is_UnsupportedOperation e = true.
Proof.
  intros H. eexists. split; [| split; reflexivity].
  rewrite extents_depth. cbn [extents_at]. rewrite H. reflexivity.
Qed.

(** What [size] sends when the server has no extents: nothing when the
    size is known, else the GET of [_emulate_head], followed by a close
    when that GET gave the size. *)
Lemma size_without_extents_wire (w : World) :
  truthy (_can_extents (self w)) = false ->
  exists sent,
    wire (snd (size peer w)) = wire w ++ sent /\
    (sent = [] \/
     sent = [Exchange (_con (self w)) (head_request w)] \/
     sent = [Exchange (_con (self w)) (head_request w); Close (_con (self w))]).
Proof.
  intros H. rewrite size_depth. cbn [size_at]. run.
  destruct (_size (self w)).
  - exists []. split; [now rewrite app_nil_r | now left].
  - rewrite H. unfold _emulate_head. run. cbn [request on_wire exchange].
    fold (head_request w).
    destruct (negb _).
    + destruct (read_n _ _); eexists; (split; [reflexivity | right; now left]).
    + destruct (py_int _); cbn.
      * eexists. split; [| right; right; reflexivity].
        now rewrite <- app_assoc.
      * eexists. split; [reflexivity | right; now left].
Qed.

(** C4, as the code has it: without extent support, [extents("zero")]
    yields one extent that starts at 0, has the length [size()] returns
    and is flagged neither zero nor hole, whenever [size()] returns; when
    [size()] raises, [extents("zero")] yields nothing and raises the
    same.  What it sends is what [size()] sends: no request for
    extents. *)
Theorem extents_zero_without_support (w : World) :
  truthy (_can_extents (self w)) = false ->
  (forall n w',
     size peer w = (Ok n, w') ->
     extents peer "zero" w =
     (([image.Zero (PInt 0) n (PBool false) false], None), w')) /\
  (forall e w',
     size peer w = (Raise e, w') ->
     extents peer "zero" w = (([], Some e), w')) /\
  exists sent,
    wire (snd (extents peer "zero" w)) = wire w ++ sent /\
    forall context, extents_request w context ∉ queries sent.
Proof.
  intros H.
  assert (Hext : extents peer "zero" w =
                 match size peer w with
                 | (Ok n, w') =>
                     (([image.Zero (PInt 0) n (PBool false) false], None), w')
                 | (Raise e, w') => (([], Some e), w')
                 end).
  { rewrite extents_depth, size_depth. cbn [extents_at]. rewrite H.
    cbn [String.eqb Ascii.eqb Bool.eqb orb negb].
    rewrite (size_at_without_extents 0 1 w H). reflexivity. }
  split; [| split].
  - intros n w' Hsize. now rewrite Hext, Hsize.
  - intros e w' Hsize. now rewrite Hext, Hsize.
  - destruct (size_without_extents_wire w H) as (sent & Hwire & Hsent).
    exists sent. split.
    + rewrite Hext. destruct (size peer w) as [[n | e] w']; exact Hwire.
    + intros context Hin.
      assert (Hq : queries sent = [] \/ queries sent = [head_request w]).
      { destruct Hsent as [-> | [-> | ->]]; [left | right | right]; reflexivity. }
      destruct Hq as [Hq | Hq]; rewrite Hq in Hin.
      * now apply not_elem_of_nil in Hin.
      * apply list_elem_of_singleton in Hin.
        symmetry in Hin. now apply head_request_no_extents_request in Hin.
Qed.

End Extents.

(** ** What the calls leave as it is *)

Lemma settled_refl (w : World) : settled w w.
Proof. unfold settled. repeat split; auto. Qed.

Lemma settled_trans (w1 w2 w3 : World) :
  settled w1 w2 -> settled w2 w3 -> settled w1 w3.
Proof.
  unfold settled.
  intros (Hu & He & Hz & Hf & Hc & Hx) (Hu' & He' & Hz' & Hf' & Hc' & Hx').
  repeat split; try congruence. auto.
Qed.

(** A state that differs in the position, the size and the log only. *)
Lemma settled_same_cache (w : World) (b' : Backend) (h : Wire) :
  url b' = url (self w) ->
  _can_extents b' = _can_extents (self w) ->
  _can_zero b' = _can_zero (self w) ->
  _can_flush b' = _can_flush (self w) ->
  _con b' = _con (self w) ->
  _extents b' = _extents (self w) ->
  settled w (mkWorld b' h).
Proof.
  intros Hu He Hz Hf Hc Hx. unfold settled. cbn.
  repeat split; auto. intros context l. now rewrite Hx.
Qed.

(** A new entry of the cache leaves the other entries alone. *)
Lemma settled_set_extents (w : World) (context : string)
    (l : list image.Extent) (h : Wire) :
  _extents (self w) !! context = None ->
  settled w (mkWorld (set_extents context l (self w)) h).
Proof.
  intros Hnone. unfold settled. cbn. repeat split; auto.
  intros context' l' Hl'.
  destruct (decide (context = context')) as [<- | Hne].
  - congruence.
  - now rewrite lookup_insert_ne.
Qed.

Ltac same := reads; cbn [fst snd]; apply settled_same_cache; reflexivity.

Section Settled.

Variable peer : Peer.

Lemma readinto_settled (buf : bytes) (w : World) :
  settled w (snd (readinto peer buf w)).
Proof.
  unfold readinto, _get. run. cbn [request on_wire exchange].
  destruct (negb _); [same |].
  destruct (py_int _); cbn; [| same].
  destruct (negb _); [same |].
  destruct (_read_all _ _) as [buf' [[] | e]]; same.
Qed.

Lemma write_settled (buf : bytes) (w : World) :
  settled w (snd (write peer buf w)).
Proof.
  unfold write, _put_header. run. cbn [request on_wire exchange].
  destruct (negb _); same.
Qed.

Lemma _patch_settled (msg : pyval) (w : World) :
  settled w (snd (_patch peer msg w)).
Proof.
  unfold _patch. run. cbn [request on_wire exchange].
  destruct (negb _); same.
Qed.

Lemma zero_settled (length : Z) (w : World) :
  settled w (snd (zero peer length w)).
Proof.
  unfold zero, _patch. run. cbn [request on_wire exchange].
  destruct (negb _); same.
Qed.

Lemma _emulate_head_settled (w : World) :
  settled w (snd (_emulate_head peer w)).
Proof.
  unfold _emulate_head. run. cbn [request on_wire exchange].
  destruct (negb _); [same |].
  destruct (py_int _); cbn; same.
Qed.

Lemma extents_size_settled (depth : nat) :
  (forall context w, settled w (snd (extents_at peer depth context w))) /\
  (forall w, settled w (snd (size_at peer depth w))).
Proof.
  induction depth as [| depth [IHextents IHsize]].
  - split; intros; apply settled_refl.
  - split.
    + intros context w. cbn [extents_at].
      destruct (negb (_ || _)); [apply settled_refl |].
      destruct (negb (truthy _)).
      * destruct (String.eqb context "zero"); [| apply settled_refl].
        specialize (IHsize w).
        destruct (size_at peer depth w) as [[n | e] w']; exact IHsize.
      * destruct (_extents (self w) !! context) as [cached |] eqn:Hcache.
        -- rewrite Hcache. apply settled_refl.
        -- unfold py_list. run.
           pose proof (_get_extents_world peer context w) as Hw.
           destruct (_get_extents peer context w) as [[yielded [e |]] w1];
             cbn in Hw; subst w1; cbn.
           ++ same.
           ++ rewrite lookup_insert_eq.
              now apply settled_set_extents.
    + intros w. cbn [size_at]. run.
      destruct (_size (self w)); [apply settled_refl |].
      destruct (truthy _).
      * unfold py_list. specialize (IHextents "zero" w).
        destruct (extents_at peer depth "zero" w) as [[yielded [e |]] w1];
          cbn in IHextents |- *; [exact IHextents |].
        destruct (last_item yielded) as [last | e]; cbn; [| exact IHextents].
        destruct (py_add _ _) as [n | e]; cbn; [| exact IHextents].
        eapply settled_trans; [exact IHextents | same].
      * pose proof (_emulate_head_settled w) as Hhead.
        destruct (_emulate_head peer w) as [[n | e] w1]; cbn in Hhead |- *;
          [| exact Hhead].
        eapply settled_trans; [exact Hhead | same].
Qed.

Lemma seek_settled (n how : Z) (w : World) :
  settled w (snd (seek peer n how w)).
Proof.
  unfold seek, tell. run.
  destruct (how =? os.SEEK_SET); [same |].
  destruct (how =? os.SEEK_CUR); [same |].
  destruct (how =? os.SEEK_END); [| apply settled_refl].
  pose proof (proj2 (extents_size_settled recursion_limit) w) as Hsize.
  fold (size peer) in Hsize.
  destruct (size peer w) as [[end_ | e] w1]; cbn in Hsize |- *; [| exact Hsize].
  destruct (py_add end_ (PInt n)) as [[] | e]; cbn; exact Hsize.
Qed.

Lemma after_settled (c : call) (w : World) : settled w (after peer c w).
Proof.
  destruct c; cbn [after].
  - apply readinto_settled.
  - apply write_settled.
  - apply zero_settled.
  - apply _patch_settled.
  - apply (proj1 (extents_size_settled recursion_limit)).
  - apply settled_refl.
  - apply seek_settled.
  - apply (proj2 (extents_size_settled recursion_limit)).
  - unfold close. cbn. same.
Qed.

Lemma run_settled (calls : list call) (w : World) :
  settled w (run peer calls w).
Proof.
  revert w. induction calls as [| c calls IH]; intros w; cbn.
  - apply settled_refl.
  - eapply settled_trans; [apply after_settled | apply IH].
Qed.

End Settled.

(** ** The extent cache *)

Section Caching.

Variable peer : Peer.

(** A context that is in the cache is answered from the cache. *)
Lemma extents_replayed (context : string) (w : World)
    (cached : list image.Extent) :
  truthy (_can_extents (self w)) = true ->
  context = "zero" \/ context = "dirty" ->
  _extents (self w) !! context = Some cached ->
  extents peer context w = ((cached, None), w).
Proof.
  intros Hcan Hcontext Hcached.
  rewrite extents_depth. cbn [extents_at]. rewrite Hcan.
  destruct Hcontext as [-> | ->]; cbn [String.eqb Ascii.eqb Bool.eqb orb negb];
    rewrite Hcached; cbn; rewrite Hcached; reflexivity.
Qed.

(** A context that is not in the cache costs one request; what the call
    yields, if it does not raise, is in the cache afterwards. *)
Lemma extents_fetched (context : string) (w : World) :
  truthy (_can_extents (self w)) = true ->
  context = "zero" \/ context = "dirty" ->
  _extents (self w) !! context = None ->
  wire (snd (extents peer context w)) =
    wire w ++ [Exchange (_con (self w)) (extents_request w context)] /\
  forall yielded,
    fst (extents peer context w) = (yielded, None) ->
    _extents (self (snd (extents peer context w))) !! context = Some yielded.
Proof.
  intros Hcan Hcontext Hnone.
  rewrite extents_depth. cbn [extents_at]. rewrite Hcan.
  assert (Hvalid : negb (String.eqb context "zero" || String.eqb context "dirty")
                   = false).
  { destruct Hcontext as [-> | ->]; reflexivity. }
  rewrite Hvalid. cbn [negb]. rewrite Hnone.
  unfold py_list. run.
  pose proof (_get_extents_world peer context w) as Hw.
  destruct (_get_extents peer context w) as [[received [e |]] w1];
    cbn in Hw; subst w1; cbn.
  - split; [reflexivity | discriminate].
  - rewrite lookup_insert_eq. cbn. split; [reflexivity |].
    intros yielded [= <-]. apply lookup_insert_eq.
Qed.

(** C6, as the code has it: with extent support and a context of "zero"
    or "dirty" that is not yet in the cache, [extents(context)] sends one
    request, the extents query of that context.  When that call has
    yielded its extents without raising, every later [extents(context)],
    whatever was called in between, yields the same extents and leaves
    the log of the connection as it finds it. *)
Theorem extents_cached (context : string) (w : World) :
  truthy (_can_extents (self w)) = true ->
  context = "zero" \/ context = "dirty" ->
  _extents (self w) !! context = None ->
  let first := extents peer context w in
  wire (snd first) =
    wire w ++ [Exchange (_con (self w)) (extents_request w context)] /\
  forall yielded,
    fst first = (yielded, None) ->
    forall calls,
      let w' := run peer calls (snd first) in
      extents peer context w' = ((yielded, None), w').
Proof.
  intros Hcan Hcontext Hnone first.
  destruct (extents_fetched context w Hcan Hcontext Hnone) as [Hwire Hcache].
  split; [exact Hwire |].
  intros yielded Hyielded calls w'.
  pose proof (proj1 (extents_size_settled peer recursion_limit) context w)
    as Hfirst.
  pose proof (run_settled peer calls (snd first)) as Hrun.
  fold (extents peer context w) in Hfirst. fold first in Hfirst. fold w' in Hrun.
  destruct (settled_trans _ _ _ Hfirst Hrun) as (_ & Hcan' & _).
  destruct Hrun as (_ & _ & _ & _ & _ & Hkept).
  apply extents_replayed.
  - now rewrite Hcan'.
  - exact Hcontext.
  - apply Hkept. now apply Hcache.
Qed.

End Caching.

(** ** Negotiation *)

Section Negotiation.

Variable peer : Peer.

Lemma _optimize_connection_absent (con : Connection) (h : Wire)
    (local : bool) :
  is_local peer = Ok local ->
  _optimize_connection peer con PNone h = (Ok con, h).
Proof.
  intros Hlocal. unfold _optimize_connection. run. rewrite Hlocal.
  now destruct local.
Qed.

(** Status 405, status 204, and status 200 with a body that [json.loads]
    rejects all give the empty dict, once the body has been read. *)
Lemma _options_empty (con : Connection) (u : Url) (h : Wire)
    (loaded : option pyval) :
  let res := respond peer h con (options_request u) in
  ending res = Whole loaded ->
  status res = http_client.METHOD_NOT_ALLOWED \/
  status res = http_client.NO_CONTENT \/
  (status res = http_client.OK /\ loaded = None) ->
  _options peer con u h = (Ok [], h ++ [Exchange con (options_request u)]).
Proof.
  intros res Hwhole H. unfold _options. run. cbn [exchange].
  fold (options_request u). fold res. unfold read. rewrite Hwhole.
  destruct H as [-> | [-> | [-> ->]]]; try reflexivity.
  cbn. unfold json_loads, json. rewrite Hwhole. reflexivity.
Qed.

(** With such an answer [open] returns a backend without capabilities that
    keeps its HTTPS connection. *)
Lemma open_without_capabilities (u : Url) (cafile : option string)
    (secure : bool) (h : Wire) (loaded : option pyval) (local : bool) :
  let con := HTTPSConnection (netloc u) cafile secure in
  let res := respond peer h con (options_request u) in
  scheme u = "https" ->
  create_default_context peer cafile = Ok tt ->
  new_connection peer (netloc u) = Ok tt ->
  is_local peer = Ok local ->
  ending res = Whole loaded ->
  status res = http_client.METHOD_NOT_ALLOWED \/
  status res = http_client.NO_CONTENT \/
  (status res = http_client.OK /\ loaded = None) ->
  open peer u cafile secure h =
  (Ok (plain u con), h ++ [Exchange con (options_request u)]).
Proof.
  intros con res Hscheme Hcontext Hnew Hlocal Hwhole H.
  unfold open. rewrite Hscheme.
  change (String.eqb "https" "https") with true. cbv iota.
  unfold __init__, _create_connection. rewrite Hcontext, Hnew. fold con.
  unfold bind at 1.
  rewrite (_options_empty con u h loaded Hwhole H). cbn [Dict.get Dict.lookup].
  unfold bind. rewrite (_optimize_connection_absent _ _ local Hlocal).
  reflexivity.
Qed.

(** A body that is JSON text but no JSON object makes [_options] raise:
    [pop] with two arguments is a TypeError on a list and an
    AttributeError on the other values. *)
Lemma _options_not_an_object (con : Connection) (u : Url) (h : Wire)
    (loaded : pyval) :
  let res := respond peer h con (options_request u) in
  status res = http_client.OK ->
  json res = Some loaded ->
  (forall d, loaded <> PDict d) ->
  exists e,
    _options peer con u h = (Raise e, h ++ [Exchange con (options_request u)]).
Proof.
  intros res Hstatus Hjson Hshape. unfold _options. run. cbn [exchange].
  fold (options_request u). fold res. rewrite Hstatus.
  unfold json_loads. rewrite Hjson.
  unfold json in Hjson. unfold read.
  destruct (ending res); [| discriminate | discriminate]. cbn.
  destruct loaded; try (eexists; reflexivity).
  now destruct (Hshape d).
Qed.

End Negotiation.

(** C3: a capability probe answered with status 200 and the body [[]]: the
    body is JSON text, but not the JSON object the probe expects.  The
    comments of [_options] say that a bad response means a server
    without features; the code raises TypeError and [open] fails. *)
Theorem open_fails_on_json_array :
  open (scripted [mkResponse 200 [] [b "[]"] (Some (PList []))] ok_empty)
       ticket None true []
  = (Raise TypeError,
     [Exchange https (options_request ticket); Close https]).
Proof. reflexivity. Qed.

(** The same with a JSON object whose features are [null]: the loop over
    the features raises. *)
Example open_fails_on_null_features :
  open (scripted [mkResponse 200 [] [] (Some (PDict [("features", PNone)]))]
                 ok_empty)
       ticket None true []
  = (Raise TypeError,
     [Exchange https (options_request ticket); Close https]).
Proof. reflexivity. Qed.

(** The answers of the older servers, for comparison. *)
Example open_method_not_allowed :
  open (scripted [mkResponse 405 [] [] None] ok_empty) ticket None true []
  = (Ok (plain ticket https), [Exchange https (options_request ticket)]).
Proof. reflexivity. Qed.

Example open_no_json :
  open (scripted [mkResponse 200 [] [b "<html>"] None] ok_empty)
       ticket None true []
  = (Ok (plain ticket https), [Exchange https (options_request ticket)]).
Proof. reflexivity. Qed.

(** A features list flattened into flags, and a Unix socket that is not
    used because the server is not local. *)
Example open_features :
  open (scripted
          [mkResponse 200 [] []
             (Some (PDict [("features", PList [PStr "extents"; PStr "zero"]);
                           ("unix_socket", PStr "/run/ovirt-imageio/sock")]))]
          ok_empty)
       ticket None true []
  = (Ok (mkBackend ticket 0 None ∅ (PBool true) (PBool true) (PBool false) https),
     [Exchange https (options_request ticket)]).
Proof. reflexivity. Qed.

(** ** The position *)

Section Position.

Variable peer : Peer.

(** C8, as the code has it: the position is 0 after [open].  For every
    integer [n], [seek(n, SEEK_SET)] returns and leaves the position at
    [n], [seek(n, SEEK_CUR)] returns and leaves it at the old position
    plus [n], and [seek(n, SEEK_END)] leaves it at [size() + n] whenever
    [size()] returns an integer; a [readinto] or [write] that returns has
    added the length of the buffer, a [zero] that returns has added its
    length, whatever its sign.  So the position after a [seek] from the
    start or from the current position is not negative exactly when the
    value it was set to is not. *)
Theorem position_nonnegative :
  (forall u cafile secure h bk h',
     open peer u cafile secure h = (Ok bk, h') -> _position bk = 0) /\
  (forall w,
     let moved (p : Z) (w' : World) :=
       mkWorld (mkBackend (url (self w')) p (_size (self w'))
                  (_extents (self w')) (_can_extents (self w'))
                  (_can_zero (self w')) (_can_flush (self w'))
                  (_con (self w')))
               (wire w') in
     (forall n, seek peer n os.SEEK_SET w = (Ok n, moved n w)) /\
     (forall n,
        seek peer n os.SEEK_CUR w =
        (Ok (_position (self w) + n), moved (_position (self w) + n) w)) /\
     (forall n end_ w',
        size peer w = (Ok (PInt end_), w') ->
        seek peer n os.SEEK_END w = (Ok (end_ + n), moved (end_ + n) w')) /\
     (forall buf buf' r w',
        readinto peer buf w = ((buf', Ok r), w') ->
        _position (self w') = _position (self w) + len buf) /\
     (forall buf r w',
        write peer buf w = (Ok r, w') ->
        _position (self w') = _position (self w) + len buf) /\
     (forall length r w',
        zero peer length w = (Ok r, w') ->
        _position (self w') = _position (self w) + length) /\
     (forall n,
        0 <= _position (self (snd (seek peer n os.SEEK_SET w))) <-> 0 <= n) /\
     (forall n,
        0 <= _position (self (snd (seek peer n os.SEEK_CUR w)))
        <-> 0 <= _position (self w) + n)).
Proof.
  split.
  - intros u cafile secure h bk h'. unfold open.
    destruct (String.eqb (scheme u) "https"); [| discriminate].
    unfold __init__.
    destruct (_create_connection peer u cafile secure) as [con | e];
      [| discriminate].
    unfold bind.
    destruct (_options peer con u h) as [[options | e] h1]; [| discriminate].
    destruct (_optimize_connection peer con _ h1) as [[con' | e] h2];
      [| discriminate].
    cbn. intros [= <- _]. reflexivity.
  - intros w moved. subst moved. cbv beta.
    assert (Hset : forall n,
              seek peer n os.SEEK_SET w =
              (Ok n, mkWorld (mkBackend (url (self w)) n (_size (self w))
                                (_extents (self w)) (_can_extents (self w))
                                (_can_zero (self w)) (_can_flush (self w))
                                (_con (self w)))
                             (wire w))) by reflexivity.
    assert (Hcur : forall n,
              seek peer n os.SEEK_CUR w =
              (Ok (_position (self w) + n),
               mkWorld (mkBackend (url (self w)) (_position (self w) + n)
                          (_size (self w))
                          (_extents (self w)) (_can_extents (self w))
                          (_can_zero (self w)) (_can_flush (self w))
                          (_con (self w)))
                       (wire w))) by reflexivity.
    split; [exact Hset |]. split; [exact Hcur |].
    split; [| split; [| split; [| split; [| split]]]].
    + intros n end_ w' Hsize.
      unfold seek, tell. run.
      change (os.SEEK_END =? os.SEEK_SET) with false.
      change (os.SEEK_END =? os.SEEK_CUR) with false.
      change (os.SEEK_END =? os.SEEK_END) with true.
      cbv beta iota. rewrite Hsize. reflexivity.
    + intros buf buf' r w'.
      unfold readinto, _get. run. cbn [request on_wire exchange].
      destruct (negb _); [reads; discriminate |].
      destruct (py_int _); cbn; [| discriminate].
      destruct (negb _); [discriminate |].
      destruct (_read_all _ _) as [buf'' [[] | e]]; [| discriminate].
      intros [= _ _ <-]. reflexivity.
    + intros buf r w'.
      unfold write, _put_header. run. cbn [request on_wire exchange].
      destruct (negb _); reads; try discriminate.
      intros [= _ <-]. reflexivity.
    + intros length r w'. unfold zero, _patch. run.
      cbn [request on_wire exchange].
      destruct (negb _); reads; try discriminate.
      intros [= _ <-]. reflexivity.
    + intros n. rewrite Hset. reflexivity.
    + intros n. rewrite Hcur. reflexivity.
Qed.

End Position.

(** ** Examples *)

(** A body that arrives in two pieces fills the buffer; one that ends early
    leaves what arrived in the buffer and the position where it was. *)
Example readinto_in_pieces :
  let res := mkResponse 206 [("content-length", "4")] [b "ab"; b "cdef"] None in
  let '((buf, r), w) :=
    readinto (scripted [res] ok_empty) (b "....")
             (opened (PBool false) (PBool false)) in
  buf = b "abcd" /\ r = Ok 4 /\ _position (self w) = 4.
Proof. repeat split. Qed.

Example readinto_truncated :
  let res := mkResponse 206 [("content-length", "4")] [b "ab"] None in
  let '((buf, r), w) :=
    readinto (scripted [res] ok_empty) (b "....")
             (opened (PBool false) (PBool false)) in
  buf = b "ab.." /\ r = Raise (RuntimeError (Expected_bytes 4 2)) /\
  _position (self w) = 0.
Proof. repeat split. Qed.

(** C2: a backend whose server has no flush sends its PUT to the bare
    resource path, and one whose server has flush appends [?flush=n]. *)
Lemma write_flush_suffix_counterexample :
  let w := opened (PBool false) (PBool false) in
  let w' := snd (write (scripted [] ok_empty) (b "data") w) in
  truthy (_can_flush (self w)) = false /\
  exists rq,
    queries (wire w') = [rq] /\
    method rq = "PUT" /\
    target rq = path (url (self w)) /\
    target rq <> path (url (self w)) +:+ "?flush=n".
Proof.
  split; [reflexivity |]. eexists. split; [reflexivity |].
  repeat split. discriminate.
Qed.

Example write_with_flush :
  queries (wire (snd (write (scripted [] ok_empty) (b "data")
                        (opened (PBool false) (PBool true)))))
  = [mkRequest "PUT" "/images/ticket?flush=n"
       [("content-length", "4");
        ("content-type", "application/octet-stream");
        ("content-range", "bytes 0-3/*")]
       (b "data")].
Proof. reflexivity. Qed.

(** C7: the exception for a context that is not known is no
    [UnsupportedOperation]; it is the RuntimeError protocol failures
    raise. *)
Lemma extents_invalid_context_counterexample :
  let w := opened (PBool true) (PBool false) in
  exists e,
    extents (scripted [] ok_empty) "data" w = (([], Some e), w) /\
    is_UnsupportedOperation e = false /\
    is_ProtocolError e = true.
Proof. eexists. repeat split. Qed.

(** C8: [seek] takes a negative offset as it comes. *)
Lemma seek_negative_counterexample :
  let w := opened (PBool false) (PBool false) in
  let w' := snd (seek (scripted [] ok_empty) (-1) os.SEEK_SET w) in
  _position (self w) = 0 /\
  seek (scripted [] ok_empty) (-1) os.SEEK_SET w = (Ok (-1), w') /\
  ~ 0 <= _position (self w').
Proof. repeat split. cbn. lia. Qed.

(** C4: when the server refuses the request [size()] falls back on,
    [extents("zero")] yields no extent at all and raises what [size()]
    raised. *)
Lemma extents_zero_size_refused_counterexample :
  let w := opened (PBool false) (PBool false) in
  truthy (_can_extents (self w)) = false /\
  extents forbidding_server "zero" w =
  (([], Some (RuntimeError (Error_GET_size (b "forbidden")))),
   mkWorld (self w) [Exchange https (head_request w)]).
Proof. split; reflexivity. Qed.

(** C6: a first [extents("zero")] that raises caches nothing; the second
    call sends the query again and yields what the first did not. *)
Lemma extents_refetched_counterexample :
  let w := opened (PBool true) (PBool false) in
  let first := extents late_listing_server "zero" w in
  let second := extents late_listing_server "zero" (snd first) in
  truthy (_can_extents (self w)) = true /\
  fst first =
    ([], Some (UnsupportedOperation (No_extents "zero" (b "not yet")))) /\
  fst second =
    ([image.Zero (PInt 0) (PInt 4096) (PBool false) false], None) /\
  queries (wire (snd second))
  = [extents_request w "zero"; extents_request w "zero"].
Proof. repeat split. Qed.

(** C9: a PATCH answered with status 200 and a body that is cut off:
    [zero] raises IncompleteRead and the position stays where it was. *)
Lemma zero_cut_body_counterexample :
  let w := opened (PBool false) (PBool false) in
  let out := zero cut_body_server 4096 w in
  (exists rq,
     wire (snd out) = [Exchange https rq] /\
     status (respond cut_body_server (wire w) https rq) = 200) /\
  fst out = Raise IncompleteRead /\
  _position (self (snd out)) = _position (self w).
Proof.
  split; [| split; reflexivity].
  eexists. split; reflexivity.
Qed.

Lemma extents_invalid_context_witness :
  exists e,
    extents (scripted [] ok_empty) "data" (opened (PBool true) (PBool false))
    = (([], Some e), opened (PBool true) (PBool false)) /\
    e = RuntimeError (Invalid_context "data") /\
    is_ProtocolError e = true /\
    is_UnsupportedOperation e = false.
Proof.
  apply (extents_invalid_context (scripted [] ok_empty) "data"
           (opened (PBool true) (PBool false))); discriminate.
Defined.

Lemma extents_dirty_unsupported_witness :
  exists e,
    extents sized_server "dirty" (opened (PBool false) (PBool false))
    = (([], Some e), opened (PBool false) (PBool false)) /\
    e = UnsupportedOperation No_dirty_extents /\
    is_UnsupportedOperation e = true.
Proof.
  apply (extents_dirty_unsupported sized_server
           (opened (PBool false) (PBool false))).
  reflexivity.
Defined.

Lemma extents_zero_without_support_witness :
  let w := opened (PBool false) (PBool false) in
  let w' := snd (size sized_server w) in
  extents sized_server "zero" w =
  (([image.Zero (PInt 0) (PInt 196608) (PBool false) false], None), w') /\
  queries (wire w') = [head_request w].
Proof.
  split; [| reflexivity].
  apply (extents_zero_without_support sized_server
           (opened (PBool false) (PBool false))); reflexivity.
Defined.

Lemma extents_cached_witness :
  let w := opened (PBool true) (PBool false) in
  let first := extents extents_server "zero" w in
  fst first = (two_extents, None) /\
  wire (snd first) = [Exchange https (extents_request w "zero")] /\
  let w' :=
    run extents_server
      [Seek 0 os.SEEK_END; Extents "dirty"; Write (b "data"); Size]
      (snd first) in
  extents extents_server "zero" w' = ((two_extents, None), w').
Proof.
  pose proof (extents_cached extents_server "zero"
                (opened (PBool true) (PBool false))
                eq_refl (or_introl eq_refl) eq_refl) as [Hwire Hsame].
  split; [reflexivity |]. split; [exact Hwire |].
  apply (Hsame two_extents). reflexivity.
Defined.

Lemma position_nonnegative_witness :
  let w := opened (PBool false) (PBool false) in
  let w10 := snd (seek (scripted [] ok_empty) 10 os.SEEK_SET w) in
  _position (self (snd (zero (scripted [] ok_empty) (-4096) w))) = 0 + -4096 /\
  (0 <= _position (self (snd (seek (scripted [] ok_empty) (-5) os.SEEK_CUR w10)))
   <-> 0 <= 10 + -5).
Proof.
  destruct (position_nonnegative (scripted [] ok_empty)) as [_ Hmoves].
  split.
  - destruct (Hmoves (opened (PBool false) (PBool false)))
      as (_ & _ & _ & _ & _ & Hzero & _).
    apply (Hzero (-4096) (-4096)). reflexivity.
  - destruct (Hmoves (snd (seek (scripted [] ok_empty) 10 os.SEEK_SET
                             (opened (PBool false) (PBool false)))))
      as (_ & _ & _ & _ & _ & _ & _ & Hcur).
    apply (Hcur (-5)).
Defined.

(** ** Reading a body *)

Section ReadAll.

Variable peer : Peer.

(** The loop of [_read_all]: the view is filled from the bytes delivered,
    and a stream that ends before the view is full leaves what arrived in
    the view and raises: IncompleteRead where the reads run into the
    break of a chunked body, else the RuntimeError with the number of
    bytes that arrived. *)
Lemma _read_all_from_delivered (broken : bool) (stream : list bytes) :
  forall (pos : nat) (view : bytes),
    (pos <= length view)%nat ->
    _read_all_from broken pos stream view =
    let data := delivered stream in
    let room := (length view - pos)%nat in
    if (room <=? length data)%nat then
      (take pos view ++ take room data, Ok tt)
    else
      (take pos view ++ data ++ drop (pos + length data) view,
       Raise (if broken && steady stream then IncompleteRead
              else RuntimeError
                     (Expected_bytes (Z.of_nat (length view))
                                     (Z.of_nat (pos + length data))))).
Proof.
  induction stream as [| packet stream IH]; intros pos view Hpos; cbn zeta.
  - cbn [_read_all_from delivered length steady forallb].
    rewrite andb_true_r.
    destruct (Nat.ltb_spec pos (length view)) as [Hlt | Hge].
    + destruct (Nat.leb_spec (length view - pos) 0) as [H0 | _]; [lia |].
      rewrite Nat.add_0_r. cbn [app]. rewrite take_drop.
      now destruct broken.
    + destruct (Nat.leb_spec (length view - pos) 0) as [_ | H0]; [| lia].
      rewrite take_nil, app_nil_r. now rewrite take_ge by lia.
  - cbn [_read_all_from].
    destruct (Nat.ltb_spec pos (length view)) as [Hlt | Hge].
    2:{ destruct (Nat.leb_spec (length view - pos)
                    (length (delivered (packet :: stream)))) as [_ | H0];
          [| lia].
        replace (length view - pos)%nat with 0%nat by lia.
        rewrite take_0, app_nil_r. now rewrite take_ge by lia. }
    destruct packet as [| x packet].
    { cbn [take length Nat.eqb delivered steady forallb negb andb].
      rewrite take_nil, andb_false_r. cbn [length Nat.eqb].
      destruct (Nat.leb_spec (length view - pos) 0) as [H0 | _]; [lia |].
      rewrite Nat.add_0_r. cbn [app]. now rewrite take_drop. }
    change (steady ((x :: packet) :: stream)) with (steady stream).
    set (p := x :: packet) in *.
    assert (Hp : (0 < length p)%nat) by (cbn; lia).
    change (delivered (p :: stream)) with (p ++ delivered stream).
    set (room := (length view - pos)%nat).
    assert (Hn : length (take room p) = Nat.min room (length p))
      by apply length_take.
    destruct (Nat.eqb_spec (length (take room p)) 0) as [H0 | _]; [lia |].
    set (view' := take pos view ++ take room p ++ drop (pos + length (take room p)) view).
    assert (Hview' : length view' = length view).
    { unfold view'. rewrite !length_app, !length_take, length_drop. lia. }
    rewrite IH by (rewrite Hview'; lia).
    cbn zeta. rewrite Hview'. rewrite length_app.
    assert (Htake : take (pos + length (take room p)) view'
                    = take pos view ++ take room p).
    { unfold view'. rewrite app_assoc. apply take_app_length'.
      rewrite length_app, !length_take. lia. }
    rewrite Htake.
    destruct (Nat.le_gt_cases room (length p)) as [Hfull | Hpart].
    + (* the piece fills the room that is left *)
      assert (Hlen : length (take room p) = room) by lia.
      rewrite Hlen.
      replace (length view - (pos + room))%nat with 0%nat by (unfold room; lia).
      cbn [Nat.leb]. rewrite take_0, app_nil_r.
      destruct (Nat.leb_spec room (length p + length (delivered stream)))
        as [_ | H1]; [| lia].
      now rewrite take_app_le by lia.
    + (* the piece goes in whole and room is left *)
      assert (Hlen : length (take room p) = length p) by lia.
      assert (Hall : take room p = p) by (apply take_ge; lia).
      rewrite Hlen, Hall.
      replace (length view - (pos + length p))%nat
        with (room - length p)%nat by (unfold room; lia).
      destruct (Nat.leb_spec (room - length p) (length (delivered stream)))
        as [Hok | Hshort].
      * destruct (Nat.leb_spec room (length p + length (delivered stream)))
          as [_ | H1]; [| lia].
        rewrite take_app_ge by lia. now rewrite <- app_assoc.
      * destruct (Nat.leb_spec room (length p + length (delivered stream)))
          as [H1 | _]; [lia |].
        f_equal.
        -- rewrite <- !app_assoc. do 3 f_equal.
           unfold view'. rewrite Hall.
           rewrite app_assoc, drop_app_ge
             by (rewrite length_app, !length_take; lia).
           rewrite length_app, !length_take, drop_drop.
           f_equal. lia.
        -- now rewrite Nat.add_assoc.
Qed.

(** X1: a ranged GET answered with status 206, the Content-Length asked
    for and a body that delivers at least that many bytes: [readinto]
    fills the buffer with the first [len(buf)] bytes delivered, returns
    [len(buf)] and has added [len(buf)] to the position; nothing else of
    the backend has changed. *)
Theorem readinto_fills_buffer (buf : bytes) (w : World) :
  let rq := get_request w (len buf) in
  let res := respond peer (wire w) (_con (self w)) rq in
  status res = http_client.PARTIAL_CONTENT ->
  py_int (getheader res "content-length") = Ok (len buf) ->
  (length buf <= length (delivered (packets res)))%nat ->
  readinto peer buf w =
  ((take (length buf) (delivered (packets res)), Ok (Z.of_nat (length buf))),
   mkWorld (mkBackend (url (self w))
              (_position (self w) + Z.of_nat (length buf))
              (_size (self w)) (_extents (self w)) (_can_extents (self w))
              (_can_zero (self w)) (_can_flush (self w)) (_con (self w)))
           (wire w ++ [Exchange (_con (self w)) rq])).
Proof.
  intros rq res Hstatus Hlength Hbody.
  unfold readinto, _get. run. cbn [request on_wire exchange].
  fold (get_request w (len buf)). fold rq. fold res.
  rewrite Hstatus, Z.eqb_refl. cbn [negb].
  rewrite Hlength, Z.eqb_refl. cbn [negb].
  unfold _read_all. rewrite _read_all_from_delivered by lia. cbn zeta.
  rewrite Nat.sub_0_r.
  destruct (Nat.leb_spec (length buf) (length (delivered (packets res))))
    as [_ | H]; [| lia].
  rewrite take_0. reflexivity.
Qed.

(** X2: the same answer with a body that ends before the buffer is full:
    [readinto] raises, IncompleteRead where the reads run into the break
    of a chunked body and else the RuntimeError that names the bytes
    expected and the bytes that came; the bytes that came are at the
    start of the buffer, the rest of it is as it was, and the backend has
    not moved. *)
Theorem readinto_short_body (buf : bytes) (w : World) :
  let rq := get_request w (len buf) in
  let res := respond peer (wire w) (_con (self w)) rq in
  let data := delivered (packets res) in
  status res = http_client.PARTIAL_CONTENT ->
  py_int (getheader res "content-length") = Ok (len buf) ->
  (length data < length buf)%nat ->
  readinto peer buf w =
  ((data ++ drop (length data) buf,
    Raise (if breaks res then IncompleteRead
           else RuntimeError
                  (Expected_bytes (Z.of_nat (length buf))
                                  (Z.of_nat (length data))))),
   mkWorld (self w) (wire w ++ [Exchange (_con (self w)) rq])).
Proof.
  intros rq res data Hstatus Hlength Hbody.
  unfold readinto, _get. run. cbn [request on_wire exchange].
  fold (get_request w (len buf)). fold rq. fold res.
  rewrite Hstatus, Z.eqb_refl. cbn [negb].
  rewrite Hlength, Z.eqb_refl. cbn [negb].
  unfold _read_all. rewrite _read_all_from_delivered by lia. cbn zeta.
  rewrite Nat.sub_0_r. fold data.
  destruct (Nat.leb_spec (length buf) (length data)) as [H | _]; [lia |].
  rewrite take_0. unfold breaks.
  destruct (ending res); reflexivity.
Qed.

(** The buffer [_read_all] returns is as long as the one it was given. *)
Lemma _read_all_length (res : Response) (buf : bytes) :
  length (fst (_read_all res buf)) = length buf.
Proof.
  unfold _read_all. rewrite _read_all_from_delivered by lia. cbn zeta.
  rewrite Nat.sub_0_r, take_0.
  destruct (Nat.leb_spec (length buf) (length (delivered (packets res))));
    cbn [fst app].
  - rewrite length_take. lia.
  - rewrite length_app, length_drop. lia.
Qed.

(** X3: whatever the server answers, [readinto] sends one request, the
    ranged GET, and hands the buffer back at its length; when it returns,
    it returns [len(buf)] and has added [len(buf)] to the position, with
    the rest of the backend as it was; when it raises, all of the
    backend is as it was. *)
Theorem readinto_accounting (buf : bytes) (w : World) :
  let out := readinto peer buf w in
  length (fst (fst out)) = length buf /\
  wire (snd out) =
    wire w ++ [Exchange (_con (self w)) (get_request w (len buf))] /\
  match snd (fst out) with
  | Ok n =>
      n = Z.of_nat (length buf) /\
      self (snd out) =
      mkBackend (url (self w)) (_position (self w) + Z.of_nat (length buf))
        (_size (self w)) (_extents (self w)) (_can_extents (self w))
        (_can_zero (self w)) (_can_flush (self w)) (_con (self w))
  | Raise _ => self (snd out) = self w
  end.
Proof.
  unfold readinto, _get. run. cbn [request on_wire exchange].
  fold (get_request w (len buf)).
  destruct (negb _); [reads; cbn; auto |].
  destruct (py_int _); cbn; [| auto].
  destruct (negb _); [cbn; auto |].
  pose proof (_read_all_length
                (respond peer (wire w) (_con (self w))
                   (get_request w (len buf))) buf) as Hlen.
  destruct (_read_all _ buf) as [buf' [[] | e]]; cbn in Hlen |- *; auto.
Qed.

End ReadAll.

Lemma readinto_fills_buffer_witness :
  readinto (scripted [mkResponse 206 [("content-length", "4")]
                        [b "ab"; b "cdef"] None] ok_empty)
           (b "....") (opened (PBool false) (PBool false))
  = ((b "abcd", Ok 4),
     mkWorld (mkBackend ticket 4 None ∅ (PBool false) (PBool false)
                (PBool false) https)
       [Exchange https
          (mkRequest "GET" "/images/ticket" [("range", "bytes=0-3")] [])]).
Proof.
  apply (readinto_fills_buffer
           (scripted [mkResponse 206 [("content-length", "4")]
                        [b "ab"; b "cdef"] None] ok_empty)
           (b "....") (opened (PBool false) (PBool false)));
    [reflexivity | reflexivity | cbn; lia].
Defined.

Lemma readinto_short_body_witness :
  readinto (scripted [Build_Response 206 [("content-length", "4")]
                        [b "ab"] Broken] ok_empty)
           (b "....") (opened (PBool false) (PBool false))
  = ((b "ab..", Raise IncompleteRead),
     mkWorld (self (opened (PBool false) (PBool false)))
       [Exchange https
          (mkRequest "GET" "/images/ticket" [("range", "bytes=0-3")] [])]).
Proof.
  apply (readinto_short_body
           (scripted [Build_Response 206 [("content-length", "4")]
                        [b "ab"] Broken] ok_empty)
           (b "....") (opened (PBool false) (PBool false)));
    [reflexivity | reflexivity | cbn; lia].
Defined.

(** ** The cursor and the resolved size across calls *)

Section Steady.

Variable peer : Peer.

Lemma size_kept_refl (w : World) : size_kept w w.
Proof. now intros n. Qed.

Lemma size_kept_trans (w1 w2 w3 : World) :
  size_kept w1 w2 -> size_kept w2 w3 -> size_kept w1 w3.
Proof. unfold size_kept. auto. Qed.

(** [extents] and [size] leave the position alone and keep a resolved
    size. *)
Lemma extents_size_steady (depth : nat) :
  (forall context w,
     _position (self (snd (extents_at peer depth context w)))
     = _position (self w) /\
     size_kept w (snd (extents_at peer depth context w))) /\
  (forall w,
     _position (self (snd (size_at peer depth w))) = _position (self w) /\
     size_kept w (snd (size_at peer depth w))).
Proof.
  induction depth as [| depth [IHextents IHsize]].
  - split; intros; (split; [reflexivity | now intros n]).
  - split.
    + intros context w. cbn [extents_at].
      destruct (negb (_ || _)); [split; [reflexivity | now intros n] |].
      destruct (negb (truthy _)).
      * destruct (String.eqb context "zero");
          [| split; [reflexivity | now intros n]].
        specialize (IHsize w).
        destruct (size_at peer depth w) as [[n | e] w']; exact IHsize.
      * destruct (_extents (self w) !! context) as [cached |] eqn:Hcache.
        -- rewrite Hcache. split; [reflexivity | now intros n].
        -- unfold py_list. run.
           pose proof (_get_extents_world peer context w) as Hw.
           destruct (_get_extents peer context w) as [[yielded [e |]] w1];
             cbn in Hw; subst w1; cbn.
           ++ split; [reflexivity | now intros n].
           ++ rewrite lookup_insert_eq. cbn.
              split; [reflexivity | now intros n].
    + intros w. cbn [size_at]. run.
      destruct (_size (self w)) eqn:Hsize;
        [split; [reflexivity | now intros n] |].
      assert (Hnone : forall w', size_kept w w').
      { intros w' n. rewrite Hsize. discriminate. }
      destruct (truthy _).
      * unfold py_list. specialize (IHextents "zero" w).
        destruct IHextents as [IHpos _].
        destruct (extents_at peer depth "zero" w) as [[yielded [e |]] w1];
          cbn in IHpos |- *; [now split |].
        destruct (last_item yielded) as [last | e]; cbn; [| now split].
        destruct (py_add _ _) as [n | e]; cbn; now split.
      * unfold _emulate_head. run. cbn [request on_wire exchange].
        destruct (negb _); [reads; now split |].
        destruct (py_int _); cbn; now split.
Qed.

Lemma after_size_kept (c : call) (w : World) : size_kept w (after peer c w).
Proof.
  destruct c; cbn [after].
  - unfold readinto, _get. run. cbn [request on_wire exchange].
    destruct (negb _); [reads; (cbn; now intros ?) |].
    destruct (py_int _); cbn; [| (cbn; now intros ?)].
    destruct (negb _); [reads; (cbn; now intros ?) |].
    destruct (_read_all _ _) as [buf' [[] | e]]; cbn; (cbn; now intros ?).
  - unfold write, _put_header. run. cbn [request on_wire exchange].
    destruct (negb _); reads; cbn; (cbn; now intros ?).
  - unfold zero, _patch. run. cbn [request on_wire exchange].
    destruct (negb _); reads; cbn; (cbn; now intros ?).
  - unfold flush, _patch. run. cbn [request on_wire exchange].
    destruct (negb _); reads; cbn; (cbn; now intros ?).
  - apply (proj1 (extents_size_steady recursion_limit)).
  - (cbn; now intros ?).
  - unfold seek, tell. run.
    destruct (how =? os.SEEK_SET); [(cbn; now intros ?) |].
    destruct (how =? os.SEEK_CUR); [(cbn; now intros ?) |].
    destruct (how =? os.SEEK_END); [| (cbn; now intros ?)].
    pose proof (proj2 (proj2 (extents_size_steady recursion_limit) w)) as Hsize.
    fold (size peer) in Hsize.
    destruct (size peer w) as [[end_ | e] w1]; cbn in Hsize |- *;
      [| exact Hsize].
    destruct (py_add end_ (PInt n)) as [[] | e]; cbn; exact Hsize.
  - apply (proj2 (extents_size_steady recursion_limit)).
  - unfold close. cbn. (cbn; now intros ?).
Qed.

Lemma run_size_kept (calls : list call) (w : World) :
  size_kept w (run peer calls w).
Proof.
  revert w. induction calls as [| c calls IH]; intros w; cbn.
  - apply size_kept_refl.
  - eapply size_kept_trans; [apply after_size_kept | apply IH].
Qed.

(** What [size] returns is the size the backend holds afterwards. *)
Lemma size_returns_resolved (w w' : World) (n : pyval) :
  size peer w = (Ok n, w') -> _size (self w') = Some n.
Proof.
  rewrite size_depth. cbn [size_at]. run.
  destruct (_size (self w)) eqn:Hsize; [now intros [= <- <-] |].
  destruct (truthy _).
  - unfold py_list.
    destruct (extents_at peer 1 "zero" w) as [[yielded [e |]] w1];
      [discriminate |].
    destruct (last_item yielded) as [last | e]; cbn; [| discriminate].
    destruct (py_add _ _) as [m | e]; cbn; [| discriminate].
    now intros [= <- <-].
  - unfold _emulate_head. run. cbn [request on_wire exchange].
    destruct (negb _); [reads; discriminate |].
    destruct (py_int _); cbn; [| discriminate].
    now intros [= <- <-].
Qed.

(** X4: the size is resolved once.  After a [size()] that returned, every
    later [size()], whatever was called in between, returns the same value
    and sends nothing. *)
Theorem size_resolved_once (w w1 : World) (n : pyval) :
  size peer w = (Ok n, w1) ->
  forall calls,
    let w' := run peer calls w1 in
    size peer w' = (Ok n, w').
Proof.
  intros Hsize calls w'.
  apply size_returns_resolved in Hsize.
  pose proof (run_size_kept calls w1 n Hsize) as Hkept. fold w' in Hkept.
  rewrite size_depth. cbn [size_at]. run. now rewrite Hkept.
Qed.

(** X5: only [readinto], [write], [zero] and [seek] move the position:
    [flush], [extents], [tell], [size] and [close] leave it where it is,
    whether they return or raise. *)
Theorem asking_keeps_position (c : call) (w : World) :
  moves c = false ->
  _position (self (after peer c w)) = _position (self w).
Proof.
  destruct c; cbn [moves after]; try discriminate; intros _.
  - unfold flush, _patch. run. cbn [request on_wire exchange].
    destruct (negb _); reads; reflexivity.
  - apply (proj1 (extents_size_steady recursion_limit)).
  - reflexivity.
  - apply (proj2 (extents_size_steady recursion_limit)).
  - reflexivity.
Qed.

(** X6: a call that raises leaves the position where it was. *)
Theorem raise_keeps_position (c : call) (w : World) (raised : exn) :
  failure peer c w = Some raised ->
  _position (self (after peer c w)) = _position (self w).
Proof.
  destruct c; cbn [failure after].
  - unfold readinto, _get. run. cbn [request on_wire exchange].
    destruct (negb _); [reads; reflexivity |].
    destruct (py_int _); cbn; [| reflexivity].
    destruct (negb _); [reads; reflexivity |].
    destruct (_read_all _ _) as [buf' [[] | e]]; cbn;
      [discriminate | reflexivity].
  - unfold write, _put_header. run. cbn [request on_wire exchange].
    destruct (negb _); reads; cbn; first [reflexivity | discriminate].
  - unfold zero, _patch. run. cbn [request on_wire exchange].
    destruct (negb _); reads; cbn; first [reflexivity | discriminate].
  - intros _. unfold flush, _patch. run. cbn [request on_wire exchange].
    destruct (negb _); reads; reflexivity.
  - intros _. apply (proj1 (extents_size_steady recursion_limit)).
  - reflexivity.
  - unfold seek, tell. run.
    destruct (how =? os.SEEK_SET); [discriminate |].
    destruct (how =? os.SEEK_CUR); [discriminate |].
    destruct (how =? os.SEEK_END); [| discriminate].
    pose proof (proj1 (proj2 (extents_size_steady recursion_limit) w)) as Hsize.
    fold (size peer) in Hsize.
    destruct (size peer w) as [[end_ | e] w1]; cbn in Hsize |- *;
      [| now intros _].
    destruct (py_add end_ (PInt n)) as [[] | e]; cbn;
      try discriminate; now intros _.
  - intros _. apply (proj2 (extents_size_steady recursion_limit)).
  - reflexivity.
Qed.

(** X7: [tell] after a [seek] that returned gives what the [seek]
    returned, for every value of [how], and changes nothing. *)
Theorem seek_then_tell (n how p : Z) (w w' : World) :
  seek peer n how w = (Ok p, w') ->
  tell w' = (Ok p, w').
Proof.
  unfold seek, tell. run.
  destruct (how =? os.SEEK_SET); [now intros [= <- <-] |].
  destruct (how =? os.SEEK_CUR); [now intros [= <- <-] |].
  destruct (how =? os.SEEK_END); [| now intros [= <- <-]].
  destruct (size peer w) as [[end_ | e] w1]; [| discriminate].
  destruct (py_add end_ (PInt n)) as [[] | e]; cbn;
    try discriminate. now intros [= <- <-].
Qed.

End Steady.

Lemma size_resolved_once_witness :
  let w1 := snd (size sized_server (opened (PBool false) (PBool false))) in
  let w' := run sized_server [Seek (-8) os.SEEK_END; Write (b "data"); Flush] w1 in
  size sized_server w' = (Ok (PInt 196608), w').
Proof.
  apply (size_resolved_once sized_server
           (opened (PBool false) (PBool false))).
  reflexivity.
Defined.

Lemma asking_keeps_position_witness :
  let w := snd (seek sized_server 512 os.SEEK_SET
                  (opened (PBool false) (PBool false))) in
  _position (self (after sized_server Size w)) = 512.
Proof.
  apply (asking_keeps_position sized_server Size
           (snd (seek sized_server 512 os.SEEK_SET
                   (opened (PBool false) (PBool false))))).
  reflexivity.
Defined.

Lemma raise_keeps_position_witness :
  let server := scripted [mkResponse 403 [] [b "forbidden"] None] ok_empty in
  let w := snd (seek server 512 os.SEEK_SET (opened (PBool false) (PBool false))) in
  _position (self (after server (Write (b "data")) w)) = 512.
Proof.
  apply (raise_keeps_position
           (scripted [mkResponse 403 [] [b "forbidden"] None] ok_empty)
           (Write (b "data"))
           (snd (seek (scripted [mkResponse 403 [] [b "forbidden"] None] ok_empty)
                   512 os.SEEK_SET (opened (PBool false) (PBool false))))
           (RuntimeError (Error_PUT 512 4 (b "forbidden")))).
  reflexivity.
Defined.

Lemma seek_then_tell_witness :
  let w' := snd (seek sized_server (-8) os.SEEK_END
                   (opened (PBool false) (PBool false))) in
  tell w' = (Ok 196600, w').
Proof.
  apply (seek_then_tell sized_server (-8) os.SEEK_END 196600
           (opened (PBool false) (PBool false))).
  reflexivity.
Defined.

(** ** Resolving the size *)

Section Size.

Variable peer : Peer.

(** X8: a server without extents is asked for the size with a GET of the
    whole resource, without a range.  On status 200 the size is the
    Content-Length, it is stored, and the connection is closed without the
    body having been read.  On any other status [size] raises the
    RuntimeError that quotes the first 512 bytes of the body, or what
    reading them raises; the connection stays open and the size stays
    unresolved. *)
Theorem size_emulated (w : World) :
  let con := _con (self w) in
  let rq := mkRequest "GET" (path (url (self w))) [] [] in
  let res := respond peer (wire w) con rq in
  truthy (_can_extents (self w)) = false ->
  _size (self w) = None ->
  (forall n,
     status res = 200 ->
     py_int (getheader res "content-length") = Ok n ->
     size peer w =
     (Ok (PInt n),
      mkWorld (mkBackend (url (self w)) (_position (self w)) (Some (PInt n))
                 (_extents (self w)) (_can_extents (self w))
                 (_can_zero (self w)) (_can_flush (self w)) (_con (self w)))
              (wire w ++ [Exchange con rq; Close con]))) /\
  (status res <> 200 ->
   size peer w =
   (Raise (match read_n res 512 with
           | Ok error => RuntimeError (Error_GET_size error)
           | Raise e => e
           end),
    mkWorld (self w) (wire w ++ [Exchange con rq]))).
Proof.
  intros con rq res Hcan Hsize.
  rewrite size_depth. cbn [size_at]. run. rewrite Hsize, Hcan.
  unfold _emulate_head. run. cbn [request on_wire exchange].
  fold rq. fold con. fold res.
  split.
  - intros n Hstatus Hlength. rewrite Hstatus.
    change (200 =? http_client.OK) with true. cbn [negb].
    rewrite Hlength. cbn. now rewrite <- app_assoc.
  - intros Hstatus. apply Z.eqb_neq in Hstatus.
    change http_client.OK with 200. rewrite Hstatus. cbn [negb].
    destruct (read_n res 512); reflexivity.
Qed.

(** With extent support [extents] leaves the size as it is. *)
Lemma extents_with_support_size (context : string) (w : World) :
  truthy (_can_extents (self w)) = true ->
  _size (self (snd (extents peer context w))) = _size (self w).
Proof.
  intros Hcan. rewrite extents_depth. cbn [extents_at]. rewrite Hcan.
  destruct (negb (_ || _)); [reflexivity |]. cbn [negb].
  destruct (_extents (self w) !! context) as [cached |] eqn:Hcache.
  - rewrite Hcache. reflexivity.
  - unfold py_list. run.
    pose proof (_get_extents_world peer context w) as Hw.
    destruct (_get_extents peer context w) as [[yielded [e |]] w1];
      cbn in Hw; subst w1; cbn; [reflexivity |].
    rewrite lookup_insert_eq. reflexivity.
Qed.

(** X9: a server with extents is asked for the zero extents, and the size
    is where the last of them ends.  A listing without extents makes
    [size] raise IndexError; an [extents] that raises makes [size] raise
    the same.  In both cases the size stays unresolved. *)
Theorem size_from_extents (w : World) :
  truthy (_can_extents (self w)) = true ->
  _size (self w) = None ->
  (forall yielded w1 last s l,
     extents peer "zero" w = ((yielded ++ [last], None), w1) ->
     image.start last = PInt s ->
     image.length last = PInt l ->
     size peer w =
     (Ok (PInt (s + l)),
      mkWorld (mkBackend (url (self w1)) (_position (self w1))
                 (Some (PInt (s + l))) (_extents (self w1))
                 (_can_extents (self w1)) (_can_zero (self w1))
                 (_can_flush (self w1)) (_con (self w1)))
              (wire w1))) /\
  (forall w1,
     extents peer "zero" w = (([], None), w1) ->
     size peer w = (Raise IndexError, w1) /\ _size (self w1) = None) /\
  (forall yielded e w1,
     extents peer "zero" w = ((yielded, Some e), w1) ->
     size peer w = (Raise e, w1) /\ _size (self w1) = None).
Proof.
  intros Hcan Hsize.
  assert (Hunfold : forall r w1,
            extents peer "zero" w = (r, w1) ->
            size peer w =
            match r with
            | (all, None) =>
                match last_item all with
                | Ok last =>
                    match py_add (image.start last) (image.length last) with
                    | Ok n => (Ok n, mkWorld (set_size n (self w1)) (wire w1))
                    | Raise e => (Raise e, w1)
                    end
                | Raise e => (Raise e, w1)
                end
            | (_, Some e) => (Raise e, w1)
            end).
  { intros r w1. rewrite extents_depth, size_depth.
    rewrite (extents_at_with_extents peer 1 0 "zero" w Hcan).
    intros Hext. cbn [size_at]. run. rewrite Hsize, Hcan.
    unfold py_list. rewrite Hext.
    destruct r as [all [e |]]; [reflexivity |].
    destruct (last_item all) as [last | e]; cbn; [| reflexivity].
    destruct (py_add _ _); reflexivity. }
  assert (Hkept : forall r w1,
            extents peer "zero" w = (r, w1) -> _size (self w1) = None).
  { intros r w1 Hext.
    pose proof (extents_with_support_size "zero" w Hcan) as H.
    rewrite Hext in H. cbn [snd] in H. now rewrite H. }
  split; [| split].
  - intros yielded w1 last s l Hext Hs Hl.
    rewrite (Hunfold _ _ Hext). unfold last_item.
    rewrite last_snoc, Hs, Hl. reflexivity.
  - intros w1 Hext. split; [now rewrite (Hunfold _ _ Hext) | eauto].
  - intros yielded e w1 Hext.
    split; [now rewrite (Hunfold _ _ Hext) | eauto].
Qed.

(** What [extents] yields without raising, with extent support, is in
    the cache afterwards. *)
Lemma extents_returned_cached (context : string) (w w1 : World)
    (yielded : list image.Extent) :
  truthy (_can_extents (self w)) = true ->
  context = "zero" \/ context = "dirty" ->
  extents peer context w = ((yielded, None), w1) ->
  _extents (self w1) !! context = Some yielded /\
  truthy (_can_extents (self w1)) = true.
Proof.
  intros Hcan Hcontext Hext.
  pose proof (proj1 (extents_size_settled peer recursion_limit) context w)
    as (_ & Hcan' & _).
  fold (extents peer context w) in Hcan'. rewrite Hext in Hcan'. cbn in Hcan'.
  split; [| now rewrite Hcan'].
  destruct (_extents (self w) !! context) as [cached |] eqn:Hcache.
  - rewrite (extents_replayed peer context w cached Hcan Hcontext Hcache) in Hext.
    now injection Hext as <- <-.
  - destruct (extents_fetched peer context w Hcan Hcontext Hcache) as [_ H].
    specialize (H yielded). rewrite Hext in H. now apply H.
Qed.

(** X10: [size] and [extents("zero")] share the listing.  With extent
    support, once [extents("zero")] has returned, [size] sends nothing;
    and once [size] has returned, [extents("zero")] yields its extents
    from the cache and sends nothing. *)
Theorem size_and_extents_share_listing (w w1 : World) :
  truthy (_can_extents (self w)) = true ->
  (forall yielded,
     extents peer "zero" w = ((yielded, None), w1) ->
     wire (snd (size peer w1)) = wire w1) /\
  (forall n,
     _size (self w) = None ->
     size peer w = (Ok n, w1) ->
     exists yielded, extents peer "zero" w1 = ((yielded, None), w1)).
Proof.
  intros Hcan. split.
  - intros yielded Hext.
    destruct (extents_returned_cached "zero" w w1 yielded Hcan
                (or_introl eq_refl) Hext) as [Hcache Hcan1].
    rewrite size_depth. cbn [size_at]. run.
    destruct (_size (self w1)); [reflexivity |].
    rewrite Hcan1. unfold py_list.
    rewrite <- (extents_at_with_extents peer 1 0 "zero" w1 Hcan1).
    rewrite <- extents_depth.
    rewrite (extents_replayed peer "zero" w1 yielded Hcan1
               (or_introl eq_refl) Hcache).
    destruct (last_item yielded) as [last | e]; cbn; [| reflexivity].
    destruct (py_add _ _); reflexivity.
  - intros n Hsize Hret. rewrite size_depth in Hret.
    cbn [size_at] in Hret. unfold bind, get, lift in Hret.
    rewrite Hsize, Hcan in Hret. unfold py_list in Hret.
    rewrite <- (extents_at_with_extents peer 1 0 "zero" w Hcan) in Hret.
    rewrite <- extents_depth in Hret.
    destruct (extents peer "zero" w) as [[yielded [e |]] w0] eqn:Hext;
      [discriminate |].
    destruct (extents_returned_cached "zero" w w0 yielded Hcan
                (or_introl eq_refl) Hext) as [Hcache Hcan0].
    destruct (last_item yielded) as [last | e]; cbn in Hret; [| discriminate].
    destruct (py_add _ _) as [m | e]; cbn in Hret; [| discriminate].
    injection Hret as <- <-. exists yielded.
    apply extents_replayed; [exact Hcan0 | now left | exact Hcache].
Qed.

End Size.

Lemma size_emulated_witness :
  size sized_server (opened (PBool false) (PBool false))
  = (Ok (PInt 196608),
     mkWorld (mkBackend ticket 0 (Some (PInt 196608)) ∅ (PBool false)
                (PBool false) (PBool false) https)
       [Exchange https (mkRequest "GET" "/images/ticket" [] []); Close https]) /\
  size forbidding_server (opened (PBool false) (PBool false))
  = (Raise (RuntimeError (Error_GET_size (b "forbidden"))),
     mkWorld (self (opened (PBool false) (PBool false)))
       [Exchange https (mkRequest "GET" "/images/ticket" [] [])]).
Proof.
  split.
  - apply (size_emulated sized_server (opened (PBool false) (PBool false)));
      reflexivity.
  - apply (size_emulated forbidding_server
             (opened (PBool false) (PBool false))); [reflexivity .. |].
    discriminate.
Defined.

Lemma size_from_extents_witness :
  (exists w1,
     size extents_server (opened (PBool true) (PBool false))
     = (Ok (PInt 196608), w1)) /\
  (exists w1,
     size empty_listing_server (opened (PBool true) (PBool false))
     = (Raise IndexError, w1) /\ _size (self w1) = None) /\
  (exists e w1,
     (size not_found_server (opened (PBool true) (PBool false))
      = (Raise e, w1) /\ _size (self w1) = None) /\
     is_UnsupportedOperation e = true).
Proof.
  split; [| split].
  - eexists.
    apply (proj1 (size_from_extents extents_server
                    (opened (PBool true) (PBool false)) eq_refl eq_refl)
             [image.Zero (PInt 0) (PInt 131072) (PBool true) false]
             (snd (extents extents_server "zero"
                     (opened (PBool true) (PBool false))))
             (image.Zero (PInt 131072) (PInt 65536) (PBool false) false)
             131072 65536); reflexivity.
  - eexists.
    apply (proj1 (proj2 (size_from_extents empty_listing_server
                           (opened (PBool true) (PBool false))
                           eq_refl eq_refl))
             (snd (extents empty_listing_server "zero"
                     (opened (PBool true) (PBool false))))).
    reflexivity.
  - eexists _, _. split.
    + apply (proj2 (proj2 (size_from_extents not_found_server
                             (opened (PBool true) (PBool false))
                             eq_refl eq_refl)) []
               (UnsupportedOperation
                  (No_extents "zero" (b "no extents here")))
               (snd (extents not_found_server "zero"
                       (opened (PBool true) (PBool false))))).
      reflexivity.
    + reflexivity.
Defined.

Lemma size_and_extents_share_listing_witness :
  let w := opened (PBool true) (PBool false) in
  wire (snd (size extents_server (snd (extents extents_server "zero" w))))
  = wire (snd (extents extents_server "zero" w)) /\
  exists yielded,
    extents extents_server "zero" (snd (size extents_server w))
    = ((yielded, None), snd (size extents_server w)).
Proof.
  destruct (size_and_extents_share_listing extents_server
              (opened (PBool true) (PBool false))
              (snd (extents extents_server "zero"
                      (opened (PBool true) (PBool false))))
              eq_refl) as [Hsize _].
  destruct (size_and_extents_share_listing extents_server
              (opened (PBool true) (PBool false))
              (snd (size extents_server (opened (PBool true) (PBool false))))
              eq_refl) as [_ Hextents].
  split.
  - apply (Hsize two_extents). reflexivity.
  - apply (Hextents (PInt 196608)); reflexivity.
Defined.

(** ** Listings of extents *)

Section Listing.

Variable peer : Peer.

(** X11: a listing answered with status 200 whose body is a JSON array of
    records that each carry start, length and the flag of the context:
    [extents] yields one extent for each record, in the order of the
    listing, of the class of the context, and stores them in the cache of
    that context. *)
Theorem extents_decoded (context : string) (w : World) (items : list pyval)
    (exts : list image.Extent) :
  let con := _con (self w) in
  let res := respond peer (wire w) con (extents_request w context) in
  truthy (_can_extents (self w)) = true ->
  context = "zero" \/ context = "dirty" ->
  _extents (self w) !! context = None ->
  status res = http_client.OK ->
  json res = Some (PList items) ->
  Forall2 (decodes context) items exts ->
  extents peer context w =
  ((exts, None),
   mkWorld (set_extents context exts (self w))
           (wire w ++ [Exchange con (extents_request w context)])).
Proof.
  intros con res Hcan Hcontext Hnone Hstatus Hjson Hitems.
  rewrite extents_depth. cbn [extents_at]. rewrite Hcan.
  assert (Hvalid : negb (String.eqb context "zero" || String.eqb context "dirty")
                   = false).
  { destruct Hcontext as [-> | ->]; reflexivity. }
  rewrite Hvalid. cbn [negb]. rewrite Hnone.
  unfold py_list, bind, on_self, modify.
  assert (Hget : _get_extents peer context w =
                 ((exts, None),
                  mkWorld (self w)
                    (wire w ++ [Exchange con (extents_request w context)]))).
  { unfold _get_extents. cbn [request on_wire exchange].
    fold (extents_request w context). fold con. fold res.
    assert (Hread : read res = Ok (arrived res)).
    { unfold read. unfold json in Hjson.
      destruct (ending res); [reflexivity | discriminate ..]. }
    rewrite Hread.
    rewrite Hstatus. cbn [Z.eqb http_client.OK http_client.NOT_FOUND Pos.eqb negb].
    unfold json_loads. rewrite Hjson. cbn [py_iter].
    f_equal. clear Hjson.
    induction Hitems as [| item ext items exts (s & l & f & Hs & Hl & Hf & ->) _ IH];
      [reflexivity |].
    rewrite Hs, Hl, Hf. rewrite IH. reflexivity. }
  rewrite Hget. cbn. rewrite lookup_insert_eq. reflexivity.
Qed.

(** X12: an [extents] that raises has yielded nothing and has left the
    backend as it was: no part of a listing is handed out or cached. *)
Theorem extents_all_or_nothing (context : string) (w : World) (e : exn) :
  snd (fst (extents peer context w)) = Some e ->
  fst (fst (extents peer context w)) = [] /\
  self (snd (extents peer context w)) = self w.
Proof.
  rewrite extents_depth. cbn [extents_at].
  destruct (negb (_ || _)); [now split |].
  destruct (negb (truthy _)) eqn:Hcan.
  - destruct (String.eqb context "zero"); [| now split].
    cbn [size_at]. run.
    destruct (_size (self w)); [discriminate |].
    apply negb_true_iff in Hcan. rewrite Hcan.
    unfold _emulate_head. run. cbn [request on_wire exchange].
    destruct (negb _); [reads; now split |].
    destruct (py_int _); cbn; [discriminate | now split].
  - destruct (_extents (self w) !! context) as [cached |] eqn:Hcache.
    + rewrite Hcache. discriminate.
    + unfold py_list. run.
      pose proof (_get_extents_world peer context w) as Hw.
      destruct (_get_extents peer context w) as [[yielded [e' |]] w1];
        cbn in Hw; subst w1; cbn.
      * now split.
      * rewrite lookup_insert_eq. discriminate.
Qed.

(** X13: the body of the answer to an extents query is read first, and
    what reading it raises is what [extents] raises.  Then the status
    decides the error: status 404 raises [UnsupportedOperation], any
    other status than 200 raises RuntimeError; both carry no more than
    the first 512 bytes of the body. *)
Theorem extents_status_errors (context : string) (w : World) :
  let con := _con (self w) in
  let res := respond peer (wire w) con (extents_request w context) in
  let w' := mkWorld (self w)
              (wire w ++ [Exchange con (extents_request w context)]) in
  truthy (_can_extents (self w)) = true ->
  context = "zero" \/ context = "dirty" ->
  _extents (self w) !! context = None ->
  (forall e,
     read res = Raise e ->
     extents peer context w = (([], Some e), w')) /\
  (forall data,
     read res = Ok data ->
     status res = http_client.NOT_FOUND ->
     extents peer context w =
     (([], Some (UnsupportedOperation
                   (No_extents context (take 512 data)))), w')) /\
  (forall data,
     read res = Ok data ->
     status res <> http_client.NOT_FOUND ->
     status res <> http_client.OK ->
     extents peer context w =
     (([], Some (RuntimeError (Error_EXTENTS (take 512 data)))), w')).
Proof.
  intros con res w' Hcan Hcontext Hnone.
  rewrite extents_depth. cbn [extents_at]. rewrite Hcan.
  assert (Hvalid : negb (String.eqb context "zero" || String.eqb context "dirty")
                   = false).
  { destruct Hcontext as [-> | ->]; reflexivity. }
  rewrite Hvalid. cbn [negb]. rewrite Hnone.
  unfold py_list, bind, _get_extents. cbn [request on_wire exchange].
  fold (extents_request w context). fold con. fold res.
  split; [| split].
  - intros e ->. reflexivity.
  - intros data -> ->. reflexivity.
  - intros data -> H404 H200. apply Z.eqb_neq in H404, H200.
    rewrite H404, H200. reflexivity.
Qed.

End Listing.

Lemma extents_decoded_witness :
  let w := opened (PBool true) (PBool false) in
  extents extents_server "zero" w =
  ((two_extents, None),
   mkWorld (set_extents "zero" two_extents (self w))
           [Exchange https (extents_request w "zero")]).
Proof.
  apply (extents_decoded extents_server "zero"
           (opened (PBool true) (PBool false))
           [PDict [("start", PInt 0); ("length", PInt 131072);
                   ("zero", PBool true)];
            PDict [("start", PInt 131072); ("length", PInt 65536);
                   ("zero", PBool false)]]
           two_extents);
    [reflexivity | now left | reflexivity | reflexivity | reflexivity |].
  repeat constructor; eexists _, _, _; repeat split.
Defined.

Lemma extents_all_or_nothing_witness :
  let w := opened (PBool true) (PBool false) in
  extents broken_listing_server "zero" w =
  (([], Some (KeyError "length")),
   mkWorld (self w) [Exchange https (extents_request w "zero")]) /\
  self (snd (extents broken_listing_server "zero" w)) = self w.
Proof.
  split; [reflexivity |].
  apply (extents_all_or_nothing broken_listing_server "zero"
           (opened (PBool true) (PBool false)) (KeyError "length")).
  reflexivity.
Defined.

Lemma extents_status_errors_witness :
  let w := opened (PBool true) (PBool false) in
  let w' := mkWorld (self w) [Exchange https (extents_request w "dirty")] in
  extents not_found_server "dirty" w =
  (([], Some (UnsupportedOperation
                (No_extents "dirty" (b "no extents here")))), w') /\
  extents forbidding_server "dirty" w =
  (([], Some (RuntimeError (Error_EXTENTS (b "forbidden")))), w') /\
  extents cut_body_server "dirty" w = (([], Some IncompleteRead), w').
Proof.
  split; [| split].
  - destruct (extents_status_errors not_found_server "dirty"
                (opened (PBool true) (PBool false))
                eq_refl (or_intror eq_refl) eq_refl) as (_ & H404 & _).
    apply (H404 (b "no extents here")); reflexivity.
  - destruct (extents_status_errors forbidding_server "dirty"
                (opened (PBool true) (PBool false))
                eq_refl (or_intror eq_refl) eq_refl) as (_ & _ & Hother).
    apply (Hother (b "forbidden")); [reflexivity | discriminate ..].
  - destruct (extents_status_errors cut_body_server "dirty"
                (opened (PBool true) (PBool false))
                eq_refl (or_intror eq_refl) eq_refl) as (Hread & _).
    apply (Hread IncompleteRead). reflexivity.
Defined.

(** ** Opening *)

Lemma Dict_lookup_set (k k' : string) (v : pyval) (d : Dict.t) :
  Dict.lookup k (Dict.set k' v d) =
  if String.eqb k k' then Some v else Dict.lookup k d.
Proof.
  induction d as [| [k0 v0] d IH]; cbn.
  - reflexivity.
  - destruct (String.eqb_spec k' k0) as [-> | Hne]; cbn.
    + now destruct (String.eqb k k0).
    + destruct (String.eqb_spec k k0) as [-> | Hne'].
      * destruct (String.eqb_spec k0 k'); [congruence | reflexivity].
      * exact IH.
Qed.

Lemma Dict_lookup_remove (k k' : string) (d : Dict.t) :
  Dict.lookup k (Dict.remove k' d) =
  if String.eqb k k' then None else Dict.lookup k d.
Proof.
  induction d as [| [k0 v0] d IH]; cbn.
  - now destruct (String.eqb k k').
  - destruct (String.eqb_spec k' k0) as [-> | Hne]; cbn.
    + rewrite IH. destruct (String.eqb_spec k k0); reflexivity.
    + destruct (String.eqb_spec k k0) as [-> | Hne'].
      * destruct (String.eqb_spec k0 k'); [congruence | reflexivity].
      * exact IH.
Qed.

Section Opening.

Variable peer : Peer.

(** The loop over a features list of strings sets each of them to True
    and touches no other key. *)
Lemma _options_features (con : Connection) (u : Url) (h : Wire)
    (d : Dict.t) (fs : list string) :
  let res := respond peer h con (options_request u) in
  status res = http_client.OK ->
  json res = Some (PDict d) ->
  Dict.get d "features" (PList []) = PList (map PStr fs) ->
  exists options,
    _options peer con u h = (Ok options, h ++ [Exchange con (options_request u)]) /\
    forall k,
      Dict.lookup k options =
      if bool_decide (k ∈ fs) then Some (PBool true)
      else if String.eqb k "features" then None
      else Dict.lookup k d.
Proof.
  intros res Hstatus Hjson Hfeatures.
  unfold _options. run. cbn [exchange].
  fold (options_request u). fold res.
  assert (Hread : read res = Ok (arrived res)).
  { unfold read. unfold json in Hjson.
    destruct (ending res); [reflexivity | discriminate ..]. }
  rewrite Hread, Hstatus. cbn.
  unfold json_loads. rewrite Hjson. unfold Dict.pop. rewrite Hfeatures.
  cbn [py_iter].
  generalize (h ++ [Exchange con (options_request u)]). intros h'.
  assert (Hloop : forall options,
            exists options',
              (fix flatten (fs0 : list pyval) (options0 : Dict.t) {struct fs0}
                 : M Wire Dict.t :=
                 match fs0 with
                 | [] => ret options0
                 | PStr feature :: fs' =>
                     flatten fs' (Dict.set feature (PBool true) options0)
                 | (PList _ | PDict _) :: _ => raise TypeError
                 | (PNone | PBool _ | PInt _) :: fs' => flatten fs' options0
                 end) (map PStr fs) options h' = (Ok options', h') /\
              forall k,
                Dict.lookup k options' =
                if bool_decide (k ∈ fs) then Some (PBool true)
                else Dict.lookup k options).
  { clear. induction fs as [| f fs IH]; intros options.
    - exists options. split; [reflexivity |]. intros k.
      rewrite bool_decide_eq_false_2; [reflexivity | apply not_elem_of_nil].
    - destruct (IH (Dict.set f (PBool true) options)) as (options' & Hrun & Hk).
      exists options'. split; [exact Hrun |]. intros k. rewrite Hk.
      rewrite Dict_lookup_set.
      destruct (bool_decide_reflect (k ∈ fs)) as [Hin | Hout].
      + rewrite bool_decide_eq_true_2; [reflexivity | now right].
      + destruct (String.eqb_spec k f) as [-> | Hne].
        * rewrite bool_decide_eq_true_2; [reflexivity | now left].
        * rewrite bool_decide_eq_false_2; [reflexivity |].
          intros Hin. apply elem_of_cons in Hin as [? | ?]; contradiction. }
  destruct (Hloop (Dict.remove "features" d)) as (options' & Hrun & Hk).
  exists options'. split; [exact Hrun |].
  intros k. rewrite Hk, Dict_lookup_remove. reflexivity.
Qed.

(** [_optimize_connection] returns a connection once [is_local] has
    returned; what [is_local] raises it raises, with nothing sent or
    closed. *)
Lemma _optimize_connection_returns (con : Connection) (unix_socket : pyval)
    (h : Wire) (local : bool) :
  is_local peer = Ok local ->
  exists con' h', _optimize_connection peer con unix_socket h = (Ok con', h').
Proof.
  intros Hlocal. unfold _optimize_connection. run. rewrite Hlocal.
  destruct (negb _); [eexists _, _; reflexivity |].
  destruct unix_socket; try (eexists _, _; reflexivity).
  destruct (listening peer s); eexists _, _; reflexivity.
Qed.


(** X14: a capability probe answered with status 200 and a JSON object
    whose features are a list of strings.  When [open] returns, it
    returns a backend at position 0 with nothing resolved or cached,
    where each of the flags extents, zero and flush is True when the list
    names it, and else what the object holds under that name, False if
    it holds nothing.  And [open] does return when the context and the
    connection can be made and [is_local] returns. *)
Theorem open_capabilities (u : Url) (cafile : option string) (secure : bool)
    (h : Wire) (d : Dict.t) (fs : list string) :
  let con := HTTPSConnection (netloc u) cafile secure in
  let res := respond peer h con (options_request u) in
  let flag name :=
    if bool_decide (name ∈ fs) then PBool true
    else Dict.get d name (PBool false) in
  scheme u = "https" ->
  status res = http_client.OK ->
  json res = Some (PDict d) ->
  Dict.get d "features" (PList []) = PList (map PStr fs) ->
  (forall bk h',
     open peer u cafile secure h = (Ok bk, h') ->
     url bk = u /\ _position bk = 0 /\ _size bk = None /\ _extents bk = ∅ /\
     _can_extents bk = flag "extents" /\
     _can_zero bk = flag "zero" /\
     _can_flush bk = flag "flush") /\
  (forall local,
     create_default_context peer cafile = Ok tt ->
     new_connection peer (netloc u) = Ok tt ->
     is_local peer = Ok local ->
     exists bk h', open peer u cafile secure h = (Ok bk, h')).
Proof.
  intros con res flag Hscheme Hstatus Hjson Hfeatures.
  destruct (_options_features con u h d fs Hstatus Hjson Hfeatures)
    as (options & Hoptions & Hk).
  unfold open. rewrite Hscheme.
  change (String.eqb "https" "https") with true. cbv iota.
  unfold __init__, _create_connection. split.
  - intros bk h'.
    destruct (create_default_context peer cafile); [| discriminate].
    destruct (new_connection peer (netloc u)); [| discriminate].
    fold con. unfold bind at 1. rewrite Hoptions. unfold bind.
    destruct (_optimize_connection peer con _ _) as [[con' | e] h2];
      [| discriminate].
    cbn. intros [= <- _].
    cbn [url _position _size _extents _can_extents _can_zero _can_flush].
    repeat split; unfold Dict.get, flag; rewrite Hk;
      destruct (bool_decide _); reflexivity.
  - intros local -> -> Hlocal.
    fold con. unfold bind at 1. rewrite Hoptions. unfold bind.
    destruct (_optimize_connection_returns con
                (Dict.get options "unix_socket" PNone)
                (h ++ [Exchange con (options_request u)]) local Hlocal)
      as (con' & h' & Hcon).
    rewrite Hcon. eexists _, _. reflexivity.
Qed.

(** X15: [_optimize_connection] raises what [is_local] raises, and
    nothing else, with nothing sent or closed.  When the peer is local,
    the socket is named by a string that is not empty and the socket
    accepts the connection, it hands back a connection to the Unix socket
    and closes the one it was given.  In every other case it hands back
    the connection it was given, still open: untouched when the peer is
    not local or no socket is named, and after closing the connection to
    the Unix socket that failed, be the socket named by a string or by
    something else. *)
Theorem _optimize_connection_outcome (con : Connection) (unix_socket : pyval)
    (h : Wire) :
  (forall e,
     is_local peer = Raise e ->
     _optimize_connection peer con unix_socket h = (Raise e, h)) /\
  (forall p,
     is_local peer = Ok true -> unix_socket = PStr p -> p <> "" ->
     listening peer p = true ->
     _optimize_connection peer con unix_socket h =
     (Ok (UnixHTTPConnection (PStr p)), h ++ [Close con])) /\
  (forall local,
     is_local peer = Ok local ->
     local = false \/ truthy unix_socket = false ->
     _optimize_connection peer con unix_socket h = (Ok con, h)) /\
  (is_local peer = Ok true ->
   truthy unix_socket = true ->
   (forall p, unix_socket = PStr p -> listening peer p = false) ->
   _optimize_connection peer con unix_socket h =
   (Ok con, h ++ [Close (UnixHTTPConnection unix_socket)])).
Proof.
  unfold _optimize_connection, py_and. run.
  split; [| split; [| split]].
  - intros e ->. reflexivity.
  - intros p -> -> Hp Hlistening. cbn.
    apply String.eqb_neq in Hp. rewrite Hp, Hlistening. reflexivity.
  - intros local -> [-> | Hfalsy]; [reflexivity |].
    destruct local; cbn; [| reflexivity]. now rewrite Hfalsy.
  - intros -> Htruthy Hsocket. cbn. rewrite Htruthy. cbn.
    destruct unix_socket; try reflexivity.
    now rewrite (Hsocket s eq_refl).
Qed.


End Opening.

Lemma open_capabilities_witness :
  exists bk h',
    open remote_daemon ticket None true [] = (Ok bk, h') /\
    url bk = ticket /\ _position bk = 0 /\ _size bk = None /\ _extents bk = ∅ /\
    _can_extents bk = PBool true /\
    _can_zero bk = PBool true /\
    _can_flush bk = PBool false.
Proof.
  destruct (open_capabilities remote_daemon ticket None true []
              [("features", PList [PStr "extents"; PStr "zero"]);
               ("unix_socket", PStr "/run/imageio.sock")]
              ["extents"; "zero"] eq_refl eq_refl eq_refl eq_refl)
    as [Hflags Hreturns].
  destruct (Hreturns false eq_refl eq_refl eq_refl) as (bk & h' & Hopen).
  exists bk, h'. split; [exact Hopen |]. apply (Hflags bk h' Hopen).
Defined.

Lemma _optimize_connection_outcome_witness :
  _optimize_connection local_daemon https (PStr "/run/imageio.sock") []
  = (Ok (UnixHTTPConnection (PStr "/run/imageio.sock")), [Close https]) /\
  _optimize_connection remote_daemon https (PStr "/run/imageio.sock") []
  = (Ok https, []) /\
  _optimize_connection local_daemon https (PInt 7) []
  = (Ok https, [Close (UnixHTTPConnection (PInt 7))]) /\
  _optimize_connection unreachable_daemon https (PStr "/run/imageio.sock") []
  = (Raise OSError, []).
Proof.
  split; [| split; [| split]].
  - apply (proj1 (proj2 (_optimize_connection_outcome local_daemon https
                           (PStr "/run/imageio.sock") []))
             "/run/imageio.sock"); [reflexivity .. | | reflexivity].
    discriminate.
  - apply (proj1 (proj2 (proj2 (_optimize_connection_outcome remote_daemon
                                  https (PStr "/run/imageio.sock") [])))
             false); [reflexivity | now left].
  - apply (proj2 (proj2 (proj2 (_optimize_connection_outcome local_daemon
                                  https (PInt 7) []))));
      [reflexivity | reflexivity | discriminate].
  - apply (proj1 (_optimize_connection_outcome unreachable_daemon https
                    (PStr "/run/imageio.sock") []) OSError).
    reflexivity.
Defined.


(** ** Sending data *)

Section Sending.

Variable peer : Peer.

(** X17: [write] and [zero] either return the length they were given,
    having added that length to the position and changed nothing else of
    the backend, or raise with the backend as it was.  The status of the
    answer and the way its body ends decide.  On status 200 the body is
    read to its end: a body that arrives whole lets the call return, a
    body that is cut raises IncompleteRead.  On any other status the call
    raises the RuntimeError that names the position, the length (for
    [zero] the message sent) and the first 512 bytes of the answer, or
    what reading those bytes raises. *)
Theorem write_zero_accounting (w : World) :
  let con := _con (self w) in
  let position := _position (self w) in
  let moved (n : Z) :=
    mkBackend (url (self w)) (position + n) (_size (self w))
      (_extents (self w)) (_can_extents (self w)) (_can_zero (self w))
      (_can_flush (self w)) (_con (self w)) in
  (forall buf,
     let length := Z.of_nat (length buf) in
     let rq :=
       mkRequest "PUT"
         (if truthy (_can_flush (self w))
          then path (url (self w)) +:+ "?flush=n" else path (url (self w)))
         (put_headers w length) buf in
     let res := respond peer (wire w) con rq in
     write peer buf w =
     if status res =? 200 then
       match ending res with
       | Whole _ =>
           (Ok length, mkWorld (moved length) (wire w ++ [Exchange con rq]))
       | Short | Broken =>
           (Raise IncompleteRead,
            mkWorld (self w) (wire w ++ [Exchange con rq]))
       end
     else
       (Raise (match read_n res 512 with
               | Ok error => RuntimeError (Error_PUT position length error)
               | Raise e => e
               end),
        mkWorld (self w) (wire w ++ [Exchange con rq]))) /\
  (forall length,
     let msg :=
       PDict [("op", PStr "zero"); ("offset", PInt position);
              ("size", PInt length);
              ("flush", PBool (negb (truthy (_can_flush (self w)))))] in
     let rq := patch_request w msg in
     let res := respond peer (wire w) con rq in
     zero peer length w =
     if status res =? 200 then
       match ending res with
       | Whole _ =>
           (Ok length, mkWorld (moved length) (wire w ++ [Exchange con rq]))
       | Short | Broken =>
           (Raise IncompleteRead,
            mkWorld (self w) (wire w ++ [Exchange con rq]))
       end
     else
       (Raise (match read_n res 512 with
               | Ok error => RuntimeError (Error_PATCH msg error)
               | Raise e => e
               end),
        mkWorld (self w) (wire w ++ [Exchange con rq]))).
Proof.
  intros con position moved. split.
  - intros buf length rq res. subst res rq length moved con position.
    unfold write, _put_header, put_headers, len. run.
    cbn [request on_wire exchange method target headers].
    change http_client.OK with 200.
    destruct (truthy (_can_flush (self w))); cbn [method target headers];
      (destruct (status _ =? 200); cbn [negb];
       [unfold read; destruct (ending _); reflexivity
       | destruct (read_n _ _); reflexivity]).
  - intros length msg rq res. subst res rq msg moved con position.
    unfold zero, _patch, patch_request. run.
    cbn [request on_wire exchange].
    change http_client.OK with 200.
    destruct (status _ =? 200); cbn [negb];
      [unfold read; destruct (ending _); reflexivity
      | destruct (read_n _ _); reflexivity].
Qed.

(** What the builtins and the reads of a body raise quotes nothing. *)
Ltac quiet H :=
  repeat match type of H with
         | context [match ?x with _ => _ end] => destruct x
         end; try discriminate; injection H as <-; exact I.

Lemma py_int_bounded (x : option string) (e : exn) :
  py_int x = Raise e -> bounded e.
Proof. unfold py_int. intros H. quiet H. Qed.

Lemma py_add_bounded (a c : pyval) (e : exn) :
  py_add a c = Raise e -> bounded e.
Proof. unfold py_add. intros H. quiet H. Qed.

Lemma py_iter_bounded (v : pyval) (e : exn) :
  py_iter v = Raise e -> bounded e.
Proof. unfold py_iter. intros H. quiet H. Qed.

Lemma py_getitem_bounded (v : pyval) (k : string) (e : exn) :
  py_getitem v k = Raise e -> bounded e.
Proof. unfold py_getitem. intros H. quiet H. Qed.

Lemma last_item_bounded {A} (l : list A) (e : exn) :
  last_item l = Raise e -> bounded e.
Proof. unfold last_item. intros H. quiet H. Qed.

Lemma read_bounded (res : Response) (e : exn) :
  read res = Raise e -> bounded e.
Proof. unfold read. intros H. quiet H. Qed.

Lemma read_n_bounded (res : Response) (n : nat) (e : exn) :
  read_n res n = Raise e -> bounded e.
Proof. unfold read_n. intros H. quiet H. Qed.

Lemma take_bounded (d : bytes) : (length (take 512 d) <= 512)%nat.
Proof. rewrite length_take. lia. Qed.

(** The error of a status that is not the expected one. *)
Lemma refusal_bounded (res : Response) (f : bytes -> message) (e : exn) :
  (forall d, carried (f d) = d) ->
  match read_n res 512 with
  | Ok error => RuntimeError (f error)
  | Raise e' => e'
  end = e ->
  bounded e.
Proof.
  intros Hf. destruct (read_n res 512) as [error | e'] eqn:Hread.
  - intros <-. cbn [bounded]. rewrite Hf.
    unfold read_n in Hread.
    repeat match type of Hread with
           | context [match ?x with _ => _ end] => destruct x
           end; try discriminate; injection Hread as <-; apply take_bounded.
  - intros <-. now apply read_n_bounded in Hread.
Qed.

(** Exceptions of [_get_extents] quote no more than 512 bytes of the
    answer. *)
Lemma _get_extents_bounded (context : string) (w : World)
    (yielded : list image.Extent) (e : exn) :
  fst (_get_extents peer context w) = (yielded, Some e) -> bounded e.
Proof.
  unfold _get_extents. cbn [request on_wire exchange].
  destruct (read _) as [data | e'] eqn:Hread.
  2:{ intros [= _ <-]. now apply read_bounded in Hread. }
  destruct (status _ =? http_client.NOT_FOUND);
    [intros [= _ <-]; apply take_bounded |].
  destruct (negb _); [intros [= _ <-]; apply take_bounded |].
  unfold json_loads. destruct (json _) as [extents |];
    [| intros [= _ <-]; exact I].
  destruct (py_iter extents) as [items | e'] eqn:Hiter.
  2:{ intros [= _ <-]. now apply py_iter_bounded in Hiter. }
  cbn [fst]. clear Hiter. revert yielded.
  induction items as [| item items IH]; intros yielded; [discriminate |].
  destruct (py_getitem item "start") as [s | e1] eqn:Hs.
  2:{ intros [= _ <-]. now apply py_getitem_bounded in Hs. }
  destruct (py_getitem item "length") as [l | e1] eqn:Hl.
  2:{ intros [= _ <-]. now apply py_getitem_bounded in Hl. }
  destruct (py_getitem item context) as [f | e1] eqn:Hf.
  2:{ intros [= _ <-]. now apply py_getitem_bounded in Hf. }
  match goal with
  | |- context [let (_, _) := ?x in _] => destruct x as [ys [e' |]]
  end; [| discriminate].
  intros [= _ <-]. now apply (IH ys).
Qed.

(** Exceptions of [extents] and [size] quote no more than 512 bytes of an
    answer. *)
Lemma extents_size_bounded (depth : nat) :
  (forall context w e,
     snd (fst (extents_at peer depth context w)) = Some e -> bounded e) /\
  (forall w e,
     fst (size_at peer depth w) = Raise e -> bounded e).
Proof.
  induction depth as [| depth [IHextents IHsize]].
  - split; cbn; [intros _ _ e [= <-] | intros _ e [= <-]]; exact I.
  - split.
    + intros context w e. cbn [extents_at].
      destruct (negb (_ || _)); [intros [= <-]; cbn; lia |].
      destruct (negb (truthy _)).
      * destruct (String.eqb context "zero"); [| intros [= <-]; cbn; lia].
        specialize (IHsize w).
        destruct (size_at peer depth w) as [[n | e'] w']; [discriminate |].
        intros [= <-]. now apply IHsize.
      * destruct (_extents (self w) !! context) as [cached |] eqn:Hcache.
        { rewrite Hcache. discriminate. }
        unfold py_list, bind.
        pose proof (_get_extents_bounded context w) as Hget.
        pose proof (_get_extents_world peer context w) as Hw.
        destruct (_get_extents peer context w) as [[yielded [e' |]] w1];
          cbn in Hw; subst w1; cbn.
        -- intros [= <-]. now apply (Hget yielded).
        -- rewrite lookup_insert_eq. discriminate.
    + intros w e. cbn [size_at]. run.
      destruct (_size (self w)); [discriminate |].
      destruct (truthy _).
      * unfold py_list. specialize (IHextents "zero" w).
        destruct (extents_at peer depth "zero" w) as [[yielded [e' |]] w1];
          cbn in IHextents |- *.
        { intros [= <-]. now apply IHextents. }
        destruct (last_item yielded) as [last | e'] eqn:Hlast; cbn.
        2:{ intros [= <-]. now apply last_item_bounded in Hlast. }
        destruct (py_add _ _) as [n | e'] eqn:Hadd; cbn; [discriminate |].
        intros [= <-]. now apply py_add_bounded in Hadd.
      * unfold _emulate_head. run. cbn [request on_wire exchange].
        destruct (negb _).
        { destruct (read_n _ _) as [error | e'] eqn:Hread; intros [= <-];
            [| now apply read_n_bounded in Hread].
          eapply (refusal_bounded _ Error_GET_size); [reflexivity |].
          rewrite Hread. reflexivity. }
        destruct (py_int _) as [n | e'] eqn:Hint; cbn; [discriminate |].
        intros [= <-]. now apply py_int_bounded in Hint.
Qed.

(** X18: the message of a RuntimeError or of an [UnsupportedOperation]
    that a call on an open backend raises quotes no more than the first
    512 bytes of what the server answered. *)
Theorem carried_bounded (c : call) (w : World) (m : message) :
  failure peer c w = Some (RuntimeError m) \/
  failure peer c w = Some (UnsupportedOperation m) ->
  (length (carried m) <= 512)%nat.
Proof.
  assert (Hbounded : forall e, failure peer c w = Some e -> bounded e).
  { intros e. destruct c; cbn [failure].
    - unfold readinto, _get. run. cbn [request on_wire exchange].
      destruct (negb _).
      { destruct (read_n _ _) as [error | e'] eqn:Hread; intros [= <-];
          [| now apply read_n_bounded in Hread].
        eapply (refusal_bounded _ (Error_GET _ _)); [reflexivity |].
        rewrite Hread. reflexivity. }
      destruct (py_int _) as [n | e'] eqn:Hint; cbn.
      + destruct (negb _); [intros [= <-]; cbn; lia |].
        unfold _read_all. rewrite _read_all_from_delivered by lia. cbn zeta.
        destruct (_ <=? _)%nat; cbn; [discriminate |].
        intros [= <-]. destruct (_ && _); cbn; lia.
      + intros [= <-]. now apply py_int_bounded in Hint.
    - unfold write, _put_header. run. cbn [request on_wire exchange].
      destruct (negb _).
      { destruct (read_n _ _) as [error | e'] eqn:Hread; intros [= <-];
          [| now apply read_n_bounded in Hread].
        eapply (refusal_bounded _ (Error_PUT _ _)); [reflexivity |].
        rewrite Hread. reflexivity. }
      destruct (read _) as [data | e'] eqn:Hread; cbn; [discriminate |].
      intros [= <-]. now apply read_bounded in Hread.
    - unfold zero, _patch. run. cbn [request on_wire exchange].
      destruct (negb _).
      { destruct (read_n _ _) as [error | e'] eqn:Hread; intros [= <-];
          [| now apply read_n_bounded in Hread].
        eapply (refusal_bounded _ (Error_PATCH _)); [reflexivity |].
        rewrite Hread. reflexivity. }
      destruct (read _) as [data | e'] eqn:Hread; cbn; [discriminate |].
      intros [= <-]. now apply read_bounded in Hread.
    - unfold flush, _patch. run. cbn [request on_wire exchange].
      destruct (negb _).
      { destruct (read_n _ _) as [error | e'] eqn:Hread; intros [= <-];
          [| now apply read_n_bounded in Hread].
        eapply (refusal_bounded _ (Error_PATCH _)); [reflexivity |].
        rewrite Hread. reflexivity. }
      destruct (read _) as [data | e'] eqn:Hread; cbn; [discriminate |].
      intros [= <-]. now apply read_bounded in Hread.
    - apply (proj1 (extents_size_bounded recursion_limit)).
    - discriminate.
    - unfold seek, tell. run.
      destruct (how =? os.SEEK_SET); [discriminate |].
      destruct (how =? os.SEEK_CUR); [discriminate |].
      destruct (how =? os.SEEK_END); [| discriminate].
      pose proof (proj2 (extents_size_bounded recursion_limit) w) as Hsize.
      fold (size peer) in Hsize.
      destruct (size peer w) as [[end_ | e'] w1]; cbn in Hsize |- *.
      + destruct (py_add end_ (PInt n)) as [[] | e'] eqn:Hadd; cbn;
          try discriminate; intros [= <-]; try exact I.
        now apply py_add_bounded in Hadd.
      + intros [= <-]. now apply Hsize.
    - pose proof (proj2 (extents_size_bounded recursion_limit) w) as Hsize.
      fold (size peer) in Hsize.
      destruct (fst (size peer w)) as [n | e']; [discriminate |].
      intros [= <-]. now apply Hsize.
    - discriminate. }
  intros [H | H]; apply Hbounded in H; exact H.
Qed.

End Sending.

Lemma carried_bounded_witness :
  failure verbose_server (Write (b "data")) (opened (PBool false) (PBool false))
  = Some (RuntimeError (Error_PUT 0 4 (repeat Byte.x21 512))) /\
  (length (carried (Error_PUT 0 4 (repeat Byte.x21 512))) <= 512)%nat.
Proof.
  split; [reflexivity |].
  apply (carried_bounded verbose_server (Write (b "data"))
           (opened (PBool false) (PBool false))).
  left. reflexivity.
Defined.

(** * The memory backend *)

Section Memory.

Variable room : nat -> bool.

Lemma PY_SSIZE_T_MAX_value : memory.PY_SSIZE_T_MAX = 9223372036854775807.
Proof. reflexivity. Qed.

Lemma is_ssize_t_spec (n : Z) :
  memory.is_ssize_t n = true <-> - 2 ^ 63 <= n <= 2 ^ 63 - 1.
Proof.
  unfold memory.is_ssize_t. rewrite PY_SSIZE_T_MAX_value.
  rewrite andb_true_iff, !Z.leb_le. lia.
Qed.

(** The mode of a backend never changes. *)
Lemma memory_mode_kept (calls : list memory.call) (self : memory.Backend) :
  memory._mode (memory.run room calls self) = memory._mode self.
Proof.
  revert self. induction calls as [| c calls IH]; intros self; [reflexivity |].
  cbn [memory.run fold_left].
  fold (memory.run room calls (memory.after room c self)).
  rewrite IH. clear IH.
  destruct c; cbn [memory.after];
    unfold memory.readinto, memory.write, memory.seek, memory.truncate,
      memory.trim, memory.zero, memory.close;
    repeat match goal with
           | |- context [if ?c then _ else _] => destruct c
           | |- context [let (_, _) := ?x in _] => destruct x
           | |- context [match ?x with _ => _ end] => destruct x
           end; reflexivity.
Qed.

(** X19: a backend whose mode does not allow writing keeps its bytes: no
    sequence of calls, with [write], [truncate], [zero] and [trim] among
    them, changes what it holds. *)
Theorem memory_read_only_keeps_bytes (calls : list memory.call)
    (self : memory.Backend) :
  memory.writable self = false ->
  memory.getvalue (memory._buf (memory.run room calls self))
  = memory.getvalue (memory._buf self).
Proof.
  revert self. induction calls as [| c calls IH]; intros self Hmode;
    [reflexivity |].
  cbn [memory.run fold_left].
  fold (memory.run room calls (memory.after room c self)).
  assert (Hstep : memory.writable (memory.after room c self) = false /\
                  memory.getvalue (memory._buf (memory.after room c self))
                  = memory.getvalue (memory._buf self)).
  { split.
    - unfold memory.writable in *.
      change (memory.after room c self) with (memory.run room [c] self).
      rewrite (memory_mode_kept [c] self). exact Hmode.
    - destruct c; cbn [memory.after];
        unfold memory.write, memory.truncate, memory.trim, memory.zero;
        rewrite ?Hmode; cbn [negb snd]; try reflexivity.
      + unfold memory.readinto, memory.BytesIO_readinto.
        destruct (negb _); [reflexivity |].
        destruct (memory.closed _); reflexivity.
      + unfold memory.seek, memory.BytesIO_seek.
        repeat match goal with
               | |- context [if ?c then _ else _] => destruct c
               end; reflexivity. }
  destruct Hstep as [Hmode' Hbytes]. rewrite IH by exact Hmode'. exact Hbytes.
Qed.

(** An absolute [seek] on an open buffer to an offset that is a
    [Py_ssize_t] and not negative leads there. *)
Lemma BytesIO_seek_set (p : nat) (held : bytes) (pos : nat) :
  Z.of_nat p <= 2 ^ 63 - 1 ->
  memory.BytesIO_seek (Z.of_nat p) 0 (memory.mkBytesIO held pos false)
  = (memory.Return (Z.of_nat p), memory.mkBytesIO held p false).
Proof.
  intros Hmax. unfold memory.BytesIO_seek.
  rewrite (proj2 (is_ssize_t_spec (Z.of_nat p))) by lia.
  change (memory.is_int 0) with true.
  cbn [andb negb memory.closed memory.getvalue Z.eqb].
  replace (Z.of_nat p <? 0) with false by (symmetry; apply Z.ltb_ge; lia).
  cbn [andb]. rewrite Z.max_r by lia. now rewrite Nat2Z.id.
Qed.

(** X20: what [write] puts at a position, [readinto] gets back from it.
    On an open backend that may be read and written, when the end of the
    write lies within the largest [Py_ssize_t] and the interpreter finds
    the memory for a buffer that has to grow: after [write(data)] and a
    [seek] back to where the write began, [readinto] fills a buffer of
    the length of the data with the data, also when the write began
    behind the end of what the backend held. *)
Theorem memory_write_then_read (self : memory.Backend) (data buf : bytes) :
  let held := memory.getvalue (memory._buf self) in
  let pos := memory.position (memory._buf self) in
  let endpos := (pos + length data)%nat in
  memory.readable self = true ->
  memory.writable self = true ->
  memory.closed (memory._buf self) = false ->
  length buf = length data ->
  Z.of_nat endpos <= 2 ^ 63 - 1 ->
  ((length held < endpos)%nat -> room endpos = true) ->
  let start := Z.of_nat pos in
  let written := snd (memory.write room data self) in
  let back := snd (memory.seek start 0 written) in
  fst (memory.write room data self) = memory.Return (Z.of_nat (length data)) /\
  fst (memory.seek start 0 written) = memory.Return start /\
  fst (memory.readinto buf back)
  = (data, memory.Return (Z.of_nat (length data))).
Proof.
  intros held pos endpos Hr Hw Hopen Hlen Hmax Hroom start written back.
  subst back written start endpos pos held.
  unfold memory.write, memory.seek, memory.readinto.
  rewrite Hw. cbn [negb].
  destruct self as [mode [held pos cl]]. cbn in Hopen. subst cl.
  unfold memory.readable in *.
  cbn [memory._buf memory._mode memory.getvalue memory.position memory.closed] in *.
  unfold memory.BytesIO_write. cbn [memory.closed memory.getvalue memory.position].
  destruct data as [| x data].
  - destruct buf; [| discriminate].
    cbn [snd fst memory._buf memory._mode].
    rewrite BytesIO_seek_set by (cbn [length] in Hmax; lia).
    cbn [snd fst memory._buf memory._mode]. rewrite Hr. cbn [negb].
    unfold memory.BytesIO_readinto. cbn. rewrite take_0. repeat split.
  - set (d := x :: data) in *.
    replace (memory.PY_SSIZE_T_MAX <? Z.of_nat (pos + length d)) with false
      by (symmetry; apply Z.ltb_ge; rewrite PY_SSIZE_T_MAX_value; lia).
    assert (Halloc : (length held <? pos + length d)%nat
                     && negb (room (pos + length d)) = false).
    { destruct (Nat.ltb_spec (length held) (pos + length d)) as [Hgrow | _];
        [| reflexivity].
      now rewrite (Hroom Hgrow). }
    rewrite Halloc.
    cbn [snd fst memory._buf memory._mode].
    rewrite BytesIO_seek_set by lia.
    cbn [snd fst memory._buf memory._mode]. rewrite Hr. cbn [negb].
    unfold memory.BytesIO_readinto. cbn [memory.closed memory.getvalue memory.position].
    set (padded := held ++ memory.zeroes (pos - length held)).
    assert (Hpadded : (pos <= length padded)%nat).
    { unfold padded, memory.zeroes. rewrite length_app, repeat_length. lia. }
    assert (Htake : length (take pos padded) = pos)
      by (rewrite length_take; lia).
    repeat split.
    rewrite drop_app_length' by (symmetry; exact Htake).
    rewrite !length_app, Htake, length_drop.
    replace (Nat.min (length buf)
               (pos + (length d + (length padded - (pos + length d))) - pos))
      with (length d) by lia.
    rewrite take_app_length, <- Hlen, drop_all, app_nil_r.
    reflexivity.
Qed.

(** X21: [zero(count)] on an open backend that may be written, and [trim]
    which is the same.  A count that is no [Py_ssize_t] raises
    OverflowError and a count below 1 changes nothing.  A count from 1
    on, when the interpreter finds the memory for the zero bytes and for
    a buffer that has to grow and the end lies within the largest
    [Py_ssize_t], returns nothing, moves the position by [count] and
    leaves [count] zero bytes behind it: what was held before the old
    position is kept (padded with zero bytes if the position lay behind
    the end), and what was held from the new position on is kept. *)
Theorem memory_zero_fills (self : memory.Backend) (count : Z) :
  memory.writable self = true ->
  memory.closed (memory._buf self) = false ->
  let held := memory.getvalue (memory._buf self) in
  let pos := memory.position (memory._buf self) in
  let n := Z.to_nat count in
  let after := snd (memory.zero room count self) in
  memory.trim room count self = memory.zero room count self /\
  (count < - 2 ^ 63 \/ 2 ^ 63 - 1 < count ->
   memory.zero room count self = (memory.Raised memory.OverflowError, self)) /\
  (- 2 ^ 63 <= count <= 0 ->
   memory.zero room count self = (memory.Return tt, self)) /\
  (0 < count ->
   Z.of_nat pos + count <= 2 ^ 63 - 1 ->
   room n = true ->
   ((length held < pos + n)%nat -> room (pos + n) = true) ->
   memory.zero room count self = (memory.Return tt, after) /\
   memory.position (memory._buf after) = (pos + n)%nat /\
   take pos (memory.getvalue (memory._buf after))
   = take pos (held ++ repeat Byte.x00 (pos - length held)) /\
   take n (drop pos (memory.getvalue (memory._buf after))) = repeat Byte.x00 n /\
   drop (pos + n) (memory.getvalue (memory._buf after)) = drop (pos + n) held).
Proof.
  intros Hw Hopen held pos n after. subst after.
  split; [reflexivity |].
  unfold memory.zero, memory.repeat_zero.
  rewrite Hw. cbn [negb].
  destruct self as [mode [held' pos' cl]]. cbn in Hopen. subst cl.
  cbn [memory._buf memory._mode memory.getvalue memory.position] in *.
  subst held pos n.
  split; [| split].
  - intros Hrange.
    destruct (memory.is_ssize_t count) eqn:Hssize; [| reflexivity].
    apply is_ssize_t_spec in Hssize. lia.
  - intros Hrange.
    rewrite (proj2 (is_ssize_t_spec count)) by lia. cbn [negb].
    replace (count <=? 0) with true by (symmetry; apply Z.leb_le; lia).
    reflexivity.
  - intros Hcount Hmax Hzeroes Hroom.
    rewrite (proj2 (is_ssize_t_spec count)) by lia. cbn [negb].
    replace (count <=? 0) with false by (symmetry; apply Z.leb_gt; lia).
    cbn [negb]. rewrite Hzeroes.
    unfold memory.BytesIO_write.
    cbn [memory.closed memory.getvalue memory.position].
    destruct (Z.to_nat count) as [| m] eqn:Hn; [lia |].
    change (memory.zeroes (S m)) with (Byte.x00 :: memory.zeroes m).
    cbv iota. change (Byte.x00 :: memory.zeroes m) with (memory.zeroes (S m)).
    assert (Hzl : length (memory.zeroes (S m)) = S m).
    { unfold memory.zeroes. now rewrite repeat_length. }
    rewrite Hzl.
    replace (memory.PY_SSIZE_T_MAX <? Z.of_nat (pos' + S m)) with false
      by (symmetry; apply Z.ltb_ge; rewrite PY_SSIZE_T_MAX_value; lia).
    assert (Halloc : (length held' <? pos' + S m)%nat
                     && negb (room (pos' + S m)) = false).
    { destruct (Nat.ltb_spec (length held') (pos' + S m)) as [Hgrow | _];
        [| reflexivity].
      now rewrite (Hroom Hgrow). }
    rewrite Halloc. cbn [snd].
    set (padded := held' ++ memory.zeroes (pos' - length held')).
    assert (Hpadded : (pos' <= length padded)%nat).
    { unfold padded, memory.zeroes. rewrite length_app, repeat_length. lia. }
    assert (Htake : length (take pos' padded) = pos')
      by (rewrite length_take; lia).
    split; [reflexivity |].
    cbn [memory._buf memory.getvalue memory.position].
    split; [reflexivity |]. split; [| split].
    + rewrite take_app_length' by (symmetry; exact Htake). reflexivity.
    + rewrite drop_app_length' by (symmetry; exact Htake).
      change (repeat Byte.x00 (S m)) with (memory.zeroes (S m)).
      rewrite <- Hzl at 1. apply take_app_length.
    + rewrite app_assoc, drop_app_length'
        by (rewrite length_app, Htake, Hzl; reflexivity).
      unfold padded. rewrite drop_app.
      rewrite (drop_ge (memory.zeroes _))
        by (unfold memory.zeroes; rewrite repeat_length; lia).
      now rewrite app_nil_r.
Qed.

(** X22: a closed backend is frozen: no call after [close] changes
    anything, so the backend stays as [close] left it, bytes and position
    included. *)
Theorem memory_closed_is_frozen (calls : list memory.call)
    (self : memory.Backend) :
  memory.run room calls (memory.close self) = memory.close self.
Proof.
  set (frozen := memory.close self).
  assert (Hclosed : memory.closed (memory._buf frozen) = true) by reflexivity.
  clearbody frozen.
  induction calls as [| c calls IH]; [reflexivity |].
  cbn [memory.run fold_left].
  fold (memory.run room calls (memory.after room c frozen)).
  assert (Hstep : memory.after room c frozen = frozen).
  { destruct frozen as [mode [held pos cl]]. cbn in Hclosed. subst cl.
    destruct c; cbn [memory.after];
      unfold memory.readinto, memory.write, memory.seek, memory.truncate,
        memory.trim, memory.zero, memory.close, memory.BytesIO_readinto,
        memory.BytesIO_write, memory.BytesIO_seek, memory.BytesIO_truncate,
        memory.BytesIO_close;
      cbn [memory.closed memory._buf memory._mode memory.getvalue
             memory.position];
      repeat match goal with
             | |- context [if ?c then _ else _] => destruct c
             | |- context [match ?x with _ => _ end] => destruct x
             end; reflexivity. }
  rewrite Hstep. exact IH.
Qed.

End Memory.

Lemma memory_read_only_keeps_bytes_witness :
  memory.getvalue
    (memory._buf
       (memory.run (fun _ => true)
          [memory.Write (b "data"); memory.Zero 8; memory.Truncate 1;
           memory.Seek 2 os.SEEK_SET; memory.Trim 8; memory.Readinto (b "..")]
          (memory.__init__ "r" (Some (b "image")))))
  = b "image".
Proof.
  apply (memory_read_only_keeps_bytes (fun _ => true)
           [memory.Write (b "data"); memory.Zero 8; memory.Truncate 1;
            memory.Seek 2 os.SEEK_SET; memory.Trim 8; memory.Readinto (b "..")]
           (memory.__init__ "r" (Some (b "image")))).
  reflexivity.
Defined.

Lemma memory_write_then_read_witness :
  let room := fun n => (n <=? 4096)%nat in
  let self := snd (memory.seek 8 os.SEEK_SET (memory.__init__ "r+" None)) in
  let written := snd (memory.write room (b "data") self) in
  let back := snd (memory.seek 8 os.SEEK_SET written) in
  fst (memory.write room (b "data") self) = memory.Return 4 /\
  fst (memory.seek 8 os.SEEK_SET written) = memory.Return 8 /\
  fst (memory.readinto (b "....") back) = (b "data", memory.Return 4).
Proof.
  apply (memory_write_then_read (fun n => (n <=? 4096)%nat)
           (snd (memory.seek 8 os.SEEK_SET (memory.__init__ "r+" None)))
           (b "data") (b "....")); try reflexivity.
  apply Z.leb_le. reflexivity.
Defined.

Lemma memory_zero_fills_witness :
  let room := fun n => (n <=? 4096)%nat in
  let self := snd (memory.seek 2 os.SEEK_SET
                     (memory.__init__ "w" (Some (b "image")))) in
  memory.zero room 2 self
  = (memory.Return tt,
     memory.mkBackend "w"
       (memory.mkBytesIO [Byte.x69; Byte.x6d; Byte.x00; Byte.x00; Byte.x65]
                         4 false)) /\
  memory.zero room 0 self = (memory.Return tt, self) /\
  memory.zero room (2 ^ 63) self = (memory.Raised memory.OverflowError, self).
Proof.
  pose proof (memory_zero_fills (fun n => (n <=? 4096)%nat)
                (snd (memory.seek 2 os.SEEK_SET
                        (memory.__init__ "w" (Some (b "image")))))
                2 eq_refl eq_refl) as (_ & _ & _ & Hzero).
  pose proof (memory_zero_fills (fun n => (n <=? 4096)%nat)
                (snd (memory.seek 2 os.SEEK_SET
                        (memory.__init__ "w" (Some (b "image")))))
                0 eq_refl eq_refl) as (_ & _ & Hnone & _).
  pose proof (memory_zero_fills (fun n => (n <=? 4096)%nat)
                (snd (memory.seek 2 os.SEEK_SET
                        (memory.__init__ "w" (Some (b "image")))))
                (2 ^ 63) eq_refl eq_refl) as (_ & Hover & _).
  split; [| split].
  - destruct Hzero as (H & _);
      [lia | apply Z.leb_le; reflexivity | reflexivity | reflexivity
       | exact H].
  - apply Hnone. lia.
  - apply Hover. right. lia.
Defined.

(** ** Requests and caches across contexts *)

Section Wire.

Variable peer : Peer.

(** X23: the cache of one context is out of reach of the other: an
    [extents] call, whatever it is asked for and however it ends, leaves
    the cache entry of every other context as it was. *)
Theorem extents_other_context (context other : string) (w : World) :
  context <> other ->
  _extents (self (snd (extents peer context w))) !! other
  = _extents (self w) !! other.
Proof.
  intros Hne. rewrite extents_depth. cbn [extents_at].
  destruct (negb (_ || _)); [reflexivity |].
  destruct (negb (truthy _)) eqn:Hcan.
  - destruct (String.eqb context "zero"); [| reflexivity].
    cbn [size_at]. run.
    destruct (_size (self w)); [reflexivity |].
    apply negb_true_iff in Hcan. rewrite Hcan.
    unfold _emulate_head. run. cbn [request on_wire exchange].
    destruct (negb _); [reads; reflexivity |].
    destruct (py_int _); reflexivity.
  - destruct (_extents (self w) !! context) as [cached |] eqn:Hcache.
    + rewrite Hcache. reflexivity.
    + unfold py_list. run.
      pose proof (_get_extents_world peer context w) as Hw.
      destruct (_get_extents peer context w) as [[yielded [e |]] w1];
        cbn in Hw; subst w1; cbn; [reflexivity |].
      rewrite lookup_insert_eq. cbn. now apply lookup_insert_ne.
Qed.

(** [extents] and [size] send one request at most. *)
Lemma extents_size_one_request (depth : nat) :
  (forall context w,
     exists sent,
       wire (snd (extents_at peer depth context w)) = wire w ++ sent /\
       (length (queries sent) <= 1)%nat) /\
  (forall w,
     exists sent,
       wire (snd (size_at peer depth w)) = wire w ++ sent /\
       (length (queries sent) <= 1)%nat).
Proof.
  assert (Hnone : forall w : World,
            exists sent, wire w = wire w ++ sent /\
                         (length (queries sent) <= 1)%nat).
  { intros w. exists []. split; [now rewrite app_nil_r | cbn; lia]. }
  induction depth as [| depth [IHextents IHsize]].
  - split; intros; apply Hnone.
  - split.
    + intros context w. cbn [extents_at].
      destruct (negb (_ || _)); [apply Hnone |].
      destruct (negb (truthy _)).
      * destruct (String.eqb context "zero"); [| apply Hnone].
        specialize (IHsize w).
        destruct (size_at peer depth w) as [[n | e] w']; exact IHsize.
      * destruct (_extents (self w) !! context) as [cached |] eqn:Hcache.
        -- rewrite Hcache. apply Hnone.
        -- unfold py_list. run.
           pose proof (_get_extents_world peer context w) as Hw.
           destruct (_get_extents peer context w) as [[yielded [e |]] w1];
             cbn in Hw; subst w1; cbn; [| rewrite lookup_insert_eq; cbn];
             (eexists; split; [reflexivity | cbn; lia]).
    + intros w. cbn [size_at]. run.
      destruct (_size (self w)); [apply Hnone |].
      destruct (truthy _).
      * unfold py_list. specialize (IHextents "zero" w).
        destruct (extents_at peer depth "zero" w) as [[yielded [e |]] w1];
          cbn in IHextents |- *; [exact IHextents |].
        destruct (last_item yielded) as [last | e]; cbn; [| exact IHextents].
        destruct (py_add _ _) as [n | e]; cbn; exact IHextents.
      * unfold _emulate_head. run. cbn [request on_wire exchange].
        destruct (negb _); [reads; eexists; (split; [reflexivity | cbn; lia]) |].
        destruct (py_int _); cbn.
        -- eexists. split; [now rewrite <- app_assoc | cbn; lia].
        -- eexists. split; [reflexivity | cbn; lia].
Qed.

(** X24: no call sends more than one request: the log grows by what the
    call sent, and that holds one request at most, whether the call
    returns or raises.  Nothing is tried a second time. *)
Theorem one_request_per_call (c : call) (w : World) :
  exists sent,
    wire (after peer c w) = wire w ++ sent /\
    (length (queries sent) <= 1)%nat.
Proof.
  assert (Hnone : forall w : World,
            exists sent, wire w = wire w ++ sent /\
                         (length (queries sent) <= 1)%nat).
  { intros w'. exists []. split; [now rewrite app_nil_r | cbn; lia]. }
  destruct c; cbn [after].
  - unfold readinto, _get. run. cbn [request on_wire exchange].
    destruct (negb _); [reads; eexists; (split; [reflexivity | cbn; lia]) |].
    destruct (py_int _); cbn; [| eexists; split; [reflexivity | cbn; lia]].
    destruct (negb _); [reads; eexists; (split; [reflexivity | cbn; lia]) |].
    destruct (_read_all _ _) as [buf' [[] | e]]; cbn;
      eexists; split; try reflexivity; cbn; lia.
  - unfold write, _put_header. run. cbn [request on_wire exchange].
    destruct (negb _); reads; cbn; eexists; (split; try reflexivity; cbn; lia).
  - unfold zero, _patch. run. cbn [request on_wire exchange].
    destruct (negb _); reads; cbn; eexists; (split; try reflexivity; cbn; lia).
  - unfold flush, _patch. run. cbn [request on_wire exchange].
    destruct (negb _); reads; cbn; eexists; (split; try reflexivity; cbn; lia).
  - apply (proj1 (extents_size_one_request recursion_limit)).
  - apply Hnone.
  - unfold seek, tell. run.
    destruct (how =? os.SEEK_SET); [apply (Hnone w) |].
    destruct (how =? os.SEEK_CUR); [apply (Hnone w) |].
    destruct (how =? os.SEEK_END); [| apply Hnone].
    pose proof (proj2 (extents_size_one_request recursion_limit) w) as Hsize.
    fold (size peer) in Hsize.
    destruct (size peer w) as [[end_ | e] w1]; cbn in Hsize |- *;
      [| exact Hsize].
    destruct (py_add end_ (PInt n)) as [[] | e]; cbn; exact Hsize.
  - apply (proj2 (extents_size_one_request recursion_limit)).
  - unfold close. cbn. eexists. split; [reflexivity | cbn; lia].
Qed.

End Wire.

Lemma extents_other_context_witness :
  let w := opened (PBool true) (PBool false) in
  _extents (self (snd (extents extents_server "zero" w))) !! "dirty" = None.
Proof.
  pose proof (extents_other_context extents_server "zero" "dirty"
                (opened (PBool true) (PBool false))) as H.
  cbn zeta. rewrite H; [reflexivity | discriminate].
Defined.
